(** * Alexandria clinical text extractor: [extractor.py]

    A shallow embedding of [src/extractor.py] and the properties of its
    extraction record.

    Conventions of the embedding.
    - A Python [str] is the list of its Unicode code points ([N]).
    - The three facts about characters that the code takes from the Python
      runtime ([str.lower], the class [\s] and the alphanumeric test behind
      [\w] and [\b]) are the fields of the class [UnicodeData]; every
      general theorem holds for any such tables.  [Latin1] gives the tables
      of CPython on U+0000..U+00FF, used to run the examples.
    - An exception is a value of [exn]; code that may raise returns a
      [result].
    - A Python [float] is a binary64 number of [SpecFloat] (precision 53,
      [emax] 1024) and arithmetic on it is the correctly rounded one. *)

From Stdlib Require Import List ZArith NArith Bool String Ascii Lia.
From Stdlib Require Import Permutation Sorted.
From Stdlib Require Import Floats.SpecFloat.
From Stdlib Require Import DecimalString.
Import ListNotations.

Set Implicit Arguments.
Local Set Warnings "-register-all".

(** ** Strings *)

Definition codepoint := N.
Bind Scope N_scope with codepoint.
Definition str := list codepoint.

(** A string literal of the source (all of them are ASCII). *)
Definition lit (s : string) : str := map N_of_ascii (list_ascii_of_string s).

Fixpoint str_eqb (a b : str) : bool :=
  match a, b with
  | [], [] => true
  | x :: a', y :: b' => N.eqb x y && str_eqb a' b'
  | _, _ => false
  end.

(** [s.startswith(p)] *)
Fixpoint startswith (p s : str) : bool :=
  match p, s with
  | [], _ => true
  | _ :: _, [] => false
  | a :: p', b :: s' => N.eqb a b && startswith p' s'
  end.

(** [p in s] on strings: [p] occurs in [s] as a contiguous run. *)
Fixpoint str_contains (p s : str) : bool :=
  startswith p s
  || match s with
     | [] => false
     | _ :: t => str_contains p t
     end.

(** [x in l] on a list of strings. *)
Fixpoint list_contains (x : str) (l : list str) : bool :=
  match l with
  | [] => false
  | y :: t => str_eqb y x || list_contains x t
  end.

(** The character tables of the Python runtime. *)
Class UnicodeData := {
  str_lower : str -> str;          (* str.lower() *)
  isspace : codepoint -> bool;     (* the class \s of a str pattern *)
  isalnum : codepoint -> bool      (* Py_UNICODE_ISALNUM, behind \w and \b *)
}.

(** ** Exceptions *)

Inductive exn :=
| TypeError (msg : str)
| KeyError (key : str)
| ValueError.

Inductive result (A : Type) :=
| Ok (a : A)
| Raise (e : exn).
Arguments Ok {A} a.
Arguments Raise {A} e.

Definition bind {A B} (m : result A) (f : A -> result B) : result B :=
  match m with
  | Ok a => f a
  | Raise e => Raise e
  end.

Notation "x <- m ;; k" := (bind m (fun x => k))
  (at level 61, m at next level, right associativity).

(** A list comprehension [[f x for x in l]] whose body may raise: the first
    exception ends it. *)
Fixpoint comprehension {A B} (f : A -> result B) (l : list A) : result (list B) :=
  match l with
  | [] => Ok []
  | x :: t => y <- f x ;; ys <- comprehension f t ;; Ok (y :: ys)
  end.

(** ** Dictionaries with string keys

    A [dict] keeps insertion order, which [keys()] exposes. *)

Definition dict (V : Type) := list (str * V).

Definition keys {V} (d : dict V) : list str := map fst d.

(** [d[k]]: the value, or [KeyError]. *)
Fixpoint getitem {V} (d : dict V) (k : str) : result V :=
  match d with
  | [] => Raise (KeyError k)
  | (k', v) :: t => if str_eqb k' k then Ok v else getitem t k
  end.

(** ** [sorted(l, key=..., reverse=...)]

    [list.sort] is stable; with [reverse=True] CPython reverses the list,
    sorts it in ascending order of the keys and reverses the result, so that
    elements with equal keys keep their original order. *)

Section Sorted.
Variable A : Type.
Variable key : A -> nat.

Fixpoint insert_sorted (x : A) (l : list A) : list A :=
  match l with
  | [] => [x]
  | y :: t => if key x <=? key y then x :: y :: t else y :: insert_sorted x t
  end.

Fixpoint stable_sort (l : list A) : list A :=
  match l with
  | [] => []
  | x :: t => insert_sorted x (stable_sort t)
  end.

Definition sorted (reverse : bool) (l : list A) : list A :=
  if reverse then rev (stable_sort (rev l)) else stable_sort l.

End Sorted.

(** ** The catalog *)

Definition SNOMED_SYMPTOM_MAP : dict str :=
  [ (lit "pelvic pain", lit "21522001");
    (lit "lower back pain", lit "279039007");
    (lit "cramps", lit "84387000");
    (lit "dysmenorrhea", lit "266599000");
    (lit "fatigue", lit "84229001");
    (lit "nausea", lit "422587007");
    (lit "migraine", lit "37796009");
    (lit "bloating", lit "116289008");
    (lit "headache", lit "25064002");
    (lit "abdominal pain", lit "21522001") ].

Definition SYMPTOM_KEYWORDS : list str :=
  sorted (@List.length codepoint) true (keys SNOMED_SYMPTOM_MAP).

(** ** Regular expressions

    The fragment of [re] syntax that the three severity patterns use, and a
    backtracking matcher in the order of [re]: the first alternative first,
    greedy repetition, the leftmost start first. *)

Inductive cset :=
| CChar (c : codepoint)          (* a literal character *)
| CRange (lo hi : codepoint)     (* [lo-hi] *)
| CSpace.                        (* \s *)

Inductive regex :=
| REmpty
| RSet (c : cset)                (* one character of the class *)
| RBoundary                      (* \b *)
| RSeq (a b : regex)
| RAlt (a b : regex)             (* a|b *)
| ROpt (a : regex)               (* a? *)
| RStar (c : cset)               (* c* *)
| RPlus (c : cset)               (* c+ *)
| RGroup (a : regex).            (* (a), the capturing group *)

(** A literal run of characters. *)
Fixpoint rstr (s : str) : regex :=
  match s with
  | [] => REmpty
  | c :: t => RSeq (RSet (CChar c)) (rstr t)
  end.

(** A position of the scan: the character before it, the text from it on,
    its index, and what the group has captured so far. *)
Record mstate := MState {
  m_prev : option codepoint;
  m_rest : str;
  m_pos : nat;
  m_group : option str
}.

(** A match object: its span and [groups()]. *)
Record match_obj := Match {
  span_start : nat;
  span_end : nat;
  groups : list (option str)
}.

Section Regex.
Context {U : UnicodeData}.

Definition in_cset (c : cset) (x : codepoint) : bool :=
  match c with
  | CChar y => N.eqb x y
  | CRange lo hi => N.leb lo x && N.leb x hi
  | CSpace => isspace x
  end.

(** [\w]: alphanumeric or the underscore; no character, no word. *)
Definition is_word (o : option codepoint) : bool :=
  match o with
  | Some c => isalnum c || N.eqb c 95
  | None => false
  end.

Definition at_boundary (st : mstate) : bool :=
  xorb (is_word (m_prev st)) (is_word (hd_error (m_rest st))).

Definition or_else (a b : option mstate) : option mstate :=
  match a with
  | Some r => Some r
  | None => b
  end.

(** Greedy [c*]: as many characters as possible first, one less on
    failure of the rest of the pattern [k]. *)
Fixpoint match_star (c : cset) (k : mstate -> option mstate)
    (prev : option codepoint) (rest : str) (pos : nat) (g : option str)
    {struct rest} : option mstate :=
  match rest with
  | x :: t =>
      if in_cset c x
      then or_else (match_star c k (Some x) t (S pos) g)
                   (k (MState prev rest pos g))
      else k (MState prev rest pos g)
  | [] => k (MState prev rest pos g)
  end.

(** [rmatch r st k]: match [r] at [st], then the rest of the pattern [k]. *)
Fixpoint rmatch (r : regex) (st : mstate) (k : mstate -> option mstate)
    {struct r} : option mstate :=
  match r with
  | REmpty => k st
  | RSet c =>
      match m_rest st with
      | x :: t =>
          if in_cset c x
          then k (MState (Some x) t (S (m_pos st)) (m_group st))
          else None
      | [] => None
      end
  | RBoundary => if at_boundary st then k st else None
  | RSeq a b => rmatch a st (fun st' => rmatch b st' k)
  | RAlt a b => or_else (rmatch a st k) (rmatch b st k)
  | ROpt a => or_else (rmatch a st k) (k st)
  | RStar c => match_star c k (m_prev st) (m_rest st) (m_pos st) (m_group st)
  | RPlus c =>
      match m_rest st with
      | x :: t =>
          if in_cset c x
          then match_star c k (Some x) t (S (m_pos st)) (m_group st)
          else None
      | [] => None
      end
  | RGroup a =>
      rmatch a st (fun st' =>
        k (MState (m_prev st') (m_rest st') (m_pos st')
                  (Some (firstn (m_pos st' - m_pos st) (m_rest st)))))
  end.

(** [pattern.match] at one position. *)
Definition match_at (r : regex) (prev : option codepoint) (rest : str)
    (pos : nat) : option match_obj :=
  match rmatch r (MState prev rest pos None) Some with
  | Some st' => Some (Match pos (m_pos st') [m_group st'])
  | None => None
  end.

(** [re.finditer] from a position on: the leftmost match, then the scan
    goes on where it ended.  [skip] counts the characters of the last match
    still ahead.  (After an empty match [re] moves one character on; the
    patterns of this file match no empty string, see [match_nonempty].) *)
Fixpoint finditer_from (r : regex) (skip : nat) (prev : option codepoint)
    (rest : str) (pos : nat) {struct rest} : list match_obj :=
  match skip with
  | S n =>
      match rest with
      | [] => []
      | x :: t => finditer_from r n (Some x) t (S pos)
      end
  | O =>
      match match_at r prev rest pos with
      | Some m =>
          m :: match rest with
               | [] => []
               | x :: t =>
                   finditer_from r (span_end m - pos - 1) (Some x) t (S pos)
               end
      | None =>
          match rest with
          | [] => []
          | x :: t => finditer_from r 0 (Some x) t (S pos)
          end
      end
  end.

Definition finditer (r : regex) (s : str) : list match_obj :=
  finditer_from r 0 None s 0.

End Regex.

(** ** [int(s)] on a string of ASCII digits

    Any other string is a [ValueError] here; [int] itself also takes a sign,
    blanks around the number, underscores and other decimal digits, none of
    which the capturing group of a severity pattern can hold (see
    [every_match_valid]). *)

Definition digit_of (c : codepoint) : option Z :=
  if N.leb 48 c && N.leb c 57 then Some (Z.of_N c - 48)%Z else None.

Fixpoint int_digits (acc : Z) (s : str) : result Z :=
  match s with
  | [] => Ok acc
  | c :: t =>
      match digit_of c with
      | Some d => int_digits (10 * acc + d)%Z t
      | None => Raise ValueError
      end
  end.

Definition int_of_str (s : str) : result Z :=
  match s with
  | [] => Raise ValueError
  | _ => int_digits 0%Z s
  end.

(** ** [_extract_severity] *)

Definition digit_or_ten : regex :=
  RGroup (RAlt (RSet (CRange 48 57)) (rstr (lit "10"))).

(** [\b([0-9]|10)\s*/\s*10\b] *)
Definition pattern_slash : regex :=
  RSeq RBoundary (RSeq digit_or_ten (RSeq (RStar CSpace) (RSeq (rstr (lit "/"))
    (RSeq (RStar CSpace) (RSeq (rstr (lit "10")) RBoundary))))).

(** [\b([0-9]|10)\s+out of\s+10\b] *)
Definition pattern_out_of : regex :=
  RSeq RBoundary (RSeq digit_or_ten (RSeq (RPlus CSpace)
    (RSeq (rstr (lit "out of")) (RSeq (RPlus CSpace)
      (RSeq (rstr (lit "10")) RBoundary))))).

(** [\b(?:about|around|roughly)?\s*([0-9]|10)\b] *)
Definition pattern_bare : regex :=
  RSeq RBoundary
    (RSeq (ROpt (RAlt (rstr (lit "about"))
                   (RAlt (rstr (lit "around")) (rstr (lit "roughly")))))
       (RSeq (RStar CSpace) (RSeq digit_or_ten RBoundary))).

Definition patterns : list regex :=
  [pattern_slash; pattern_out_of; pattern_bare].

(** [[g for g in match.groups() if g is not None]] *)
Fixpoint not_none (gs : list (option str)) : list str :=
  match gs with
  | [] => []
  | Some g :: t => g :: not_none t
  | None :: t => not_none t
  end.

(** The inner loop, over the matches of one pattern: [Ok (Some v)] when it
    returns [v], [Ok None] when it ends without returning. *)
Fixpoint scan_matches (ms : list match_obj) : result (option Z) :=
  match ms with
  | [] => Ok None
  | m :: rest =>
      match not_none (groups m) with
      | g :: _ =>
          match int_of_str g with
          | Ok value =>
              if (0 <=? value)%Z && (value <=? 10)%Z
              then Ok (Some value)
              else scan_matches rest
          | Raise ValueError => scan_matches rest
          | Raise e => Raise e
          end
      | [] => scan_matches rest
      end
  end.

Section Severity.
Context {U : UnicodeData}.

(** The outer loop, over the patterns. *)
Fixpoint scan_patterns (ps : list regex) (lowered : str) : result (option Z) :=
  match ps with
  | [] => Ok None
  | p :: rest =>
      found <- scan_matches (finditer p lowered) ;;
      match found with
      | Some value => Ok (Some value)
      | None => scan_patterns rest lowered
      end
  end.

Definition _extract_severity (text : str) : result (option Z) :=
  let lowered := str_lower text in
  scan_patterns patterns lowered.

End Severity.

(** ** [_extract_symptoms] *)

Section Symptoms.
Context {U : UnicodeData}.

Definition _extract_symptoms (text : str) : list str :=
  let lowered := str_lower text in
  let found :=
    fold_left
      (fun found keyword =>
         if str_contains keyword lowered then found ++ [keyword] else found)
      SYMPTOM_KEYWORDS [] in
  fold_left
    (fun deduped s =>
       if negb (list_contains s deduped) then deduped ++ [s] else deduped)
    found [].

End Symptoms.

(** ** The character tables on U+0000..U+00FF *)

Definition between (lo hi c : N) : bool := N.leb lo c && N.leb c hi.

Definition latin1_lower (c : codepoint) : codepoint :=
  if between 65 90 c || between 192 214 c || between 216 222 c
  then (c + 32)%N else c.

Definition latin1_isspace (c : codepoint) : bool :=
  between 9 13 c || between 28 32 c || N.eqb c 133 || N.eqb c 160.

Definition latin1_isalnum (c : codepoint) : bool :=
  between 48 57 c || between 65 90 c || between 97 122 c
  || N.eqb c 170 || between 178 179 c || N.eqb c 181 || between 185 186 c
  || between 188 190 c || between 192 214 c || between 216 246 c
  || between 248 255 c.

#[export] Instance Latin1 : UnicodeData := {
  str_lower := map latin1_lower;
  isspace := latin1_isspace;
  isalnum := latin1_isalnum
}.

(** ** Floats: binary64 *)

Definition float := spec_float.
Definition prec : Z := 53.
Definition emax : Z := 1024.

Definition float_of_Z (n : Z) : float := binary_normalize prec emax n 0 false.

(** The float of a decimal literal with [k] digits after the point: the
    binary64 number nearest to [n / 10^k]. *)
Definition decimal (n : Z) (k : nat) : float :=
  SFdiv prec emax (float_of_Z n) (float_of_Z (10 ^ Z.of_nat k)).

Definition fadd : float -> float -> float := SFadd prec emax.

(** [max(a, b)] and [min(a, b)]: the second argument only when it is
    strictly beyond the first. *)
Definition py_max (a b : float) : float := if SFltb a b then b else a.
Definition py_min (a b : float) : float := if SFltb b a then b else a.

(** The integer nearest to [a / b] for [0 < b], ties to even. *)
Definition div_half_even (a b : Z) : Z :=
  let q := (a / b)%Z in
  match (2 * (a mod b) ?= b)%Z with
  | Lt => q
  | Gt => (q + 1)%Z
  | Eq => if Z.even q then q else (q + 1)%Z
  end.

(** [round(x, ndigits)]: the exact value of [x] is rounded to [ndigits]
    decimals, ties to even, and the float nearest to that decimal is the
    result. *)
Definition py_round (x : float) (ndigits : nat) : float :=
  match x with
  | S754_finite s m e =>
      let scaled := (Zpos m * 10 ^ Z.of_nat ndigits)%Z in
      let n := if (0 <=? e)%Z then (scaled * 2 ^ e)%Z
               else div_half_even scaled (2 ^ (- e)) in
      let r := decimal n ndigits in
      if s then SFopp r else r
  | _ => x
  end.

(** ** [_compute_confidence] *)

Definition _compute_confidence (num_symptoms : Z) (has_severity : bool) : float :=
  let base := decimal 5 1 in
  let base := if (num_symptoms >? 0)%Z then fadd base (decimal 25 2) else base in
  let base := if has_severity then fadd base (decimal 15 2) else base in
  py_round (py_min (py_max base (decimal 0 1)) (decimal 99 2)) 2.

(** ** Python values and [json.dumps] *)

Inductive pyvalue :=
| PyNone
| PyBool (b : bool)
| PyInt (z : Z)
| PyFloat (f : float)
| PyStr (s : str)
| PyBytes (b : list N)
| PyList (l : list pyvalue)
| PyDict (d : list (str * pyvalue)).

(** [isinstance(v, str)] *)
Definition isinstance_str (v : pyvalue) : bool :=
  match v with
  | PyStr _ => true
  | _ => false
  end.

(** The document [json.dumps] writes, before it is laid out as text. *)
Inductive json :=
| JNull
| JBool (b : bool)
| JInt (z : Z)
| JFloat (f : float)
| JString (s : str)
| JArray (l : list json)
| JObject (members : list (str * json)).

(** [json.dumps]: [bytes] is the one type of [pyvalue] it refuses. *)
Fixpoint json_dumps (v : pyvalue) : result json :=
  match v with
  | PyNone => Ok JNull
  | PyBool b => Ok (JBool b)
  | PyInt z => Ok (JInt z)
  | PyFloat f => Ok (JFloat f)
  | PyStr s => Ok (JString s)
  | PyBytes _ =>
      Raise (TypeError (lit "Object of type bytes is not JSON serializable"))
  | PyList l =>
      items <- (fix dump_items (l : list pyvalue) : result (list json) :=
                  match l with
                  | [] => Ok []
                  | x :: t =>
                      y <- json_dumps x ;; ys <- dump_items t ;; Ok (y :: ys)
                  end) l ;;
      Ok (JArray items)
  | PyDict d =>
      members <- (fix dump_members (d : list (str * pyvalue))
                    : result (list (str * json)) :=
                    match d with
                    | [] => Ok []
                    | (k, x) :: t =>
                        y <- json_dumps x ;; ys <- dump_members t ;;
                        Ok ((k, y) :: ys)
                    end) d ;;
      Ok (JObject members)
  end.

Definition field_names (doc : json) : list str :=
  match doc with
  | JObject members => map fst members
  | _ => []
  end.

(** [d.get(k)] on a dict value. *)
Fixpoint dict_get (d : list (str * pyvalue)) (k : str) : option pyvalue :=
  match d with
  | [] => None
  | (k', v) :: t => if str_eqb k' k then Some v else dict_get t k
  end.

Definition field (v : pyvalue) (k : string) : option pyvalue :=
  match v with
  | PyDict d => dict_get d (lit k)
  | _ => None
  end.

(** ** [extract_clinical_data] *)

Definition py_of_severity (severity : option Z) : pyvalue :=
  match severity with
  | Some v => PyInt v
  | None => PyNone
  end.

Definition is_not_none (severity : option Z) : bool :=
  match severity with
  | Some _ => true
  | None => false
  end.

Section Extract.
Context {U : UnicodeData}.

Definition extract_clinical_data (user_text : pyvalue) : result pyvalue :=
  match user_text with
  | PyStr text =>
      let symptoms := _extract_symptoms text in
      snomed_codes <- comprehension (getitem SNOMED_SYMPTOM_MAP) symptoms ;;
      severity <- _extract_severity text ;;
      let confidence :=
        _compute_confidence (Z.of_nat (List.length symptoms))
                            (is_not_none severity) in
      Ok (PyDict
            [ (lit "original_text", PyStr text);
              (lit "extracted_symptoms", PyList (map PyStr symptoms));
              (lit "snomed_codes", PyList (map PyStr snomed_codes));
              (lit "severity", py_of_severity severity);
              (lit "confidence_score", PyFloat confidence) ])
  | _ => Raise (TypeError (lit "user_text must be a string"))
  end.

End Extract.

(** ** The severity rules as the specification words them

    Each rule is scanned left to right for the first match whose captured
    text parses as an integer in [0,10]; the first rule that has one gives
    the severity, and the later rules are not looked at. *)

Definition captured_value (m : match_obj) : option Z :=
  match nth 0 (groups m) None with
  | Some g =>
      match int_of_str g with
      | Ok v => if (0 <=? v)%Z && (v <=? 10)%Z then Some v else None
      | Raise _ => None
      end
  | None => None
  end.

Fixpoint first_value (ms : list match_obj) : option Z :=
  match ms with
  | [] => None
  | m :: rest =>
      match captured_value m with
      | Some v => Some v
      | None => first_value rest
      end
  end.

Section Rules.
Context {U : UnicodeData}.

Fixpoint severity_by_rules (rules : list regex) (lowered : str) : option Z :=
  match rules with
  | [] => None
  | r :: rest =>
      match first_value (finditer r lowered) with
      | Some v => Some v
      | None => severity_by_rules rest lowered
      end
  end.

(** ** What a pattern matches, as a relation

    [matches r st st']: [r] matches the text between the positions [st] and
    [st'].  The matcher [rmatch] only finds matches of this relation
    ([rmatch_sound]). *)

Inductive star_run (c : cset) : mstate -> mstate -> Prop :=
| star_stop st : star_run c st st
| star_more st x t st' :
    m_rest st = x :: t ->
    in_cset c x = true ->
    star_run c (MState (Some x) t (S (m_pos st)) (m_group st)) st' ->
    star_run c st st'.

Inductive matches : regex -> mstate -> mstate -> Prop :=
| m_empty st : matches REmpty st st
| m_set c st x t :
    m_rest st = x :: t ->
    in_cset c x = true ->
    matches (RSet c) st (MState (Some x) t (S (m_pos st)) (m_group st))
| m_boundary st : at_boundary st = true -> matches RBoundary st st
| m_seq a b st st1 st2 :
    matches a st st1 -> matches b st1 st2 -> matches (RSeq a b) st st2
| m_alt_l a b st st' : matches a st st' -> matches (RAlt a b) st st'
| m_alt_r a b st st' : matches b st st' -> matches (RAlt a b) st st'
| m_opt_some a st st' : matches a st st' -> matches (ROpt a) st st'
| m_opt_none a st : matches (ROpt a) st st
| m_star c st st' : star_run c st st' -> matches (RStar c) st st'
| m_plus c st x t st' :
    m_rest st = x :: t ->
    in_cset c x = true ->
    star_run c (MState (Some x) t (S (m_pos st)) (m_group st)) st' ->
    matches (RPlus c) st st'
| m_group_ a st st' :
    matches a st st' ->
    matches (RGroup a) st
      (MState (m_prev st') (m_rest st') (m_pos st')
              (Some (firstn (m_pos st' - m_pos st) (m_rest st)))).

End Rules.

(** The texts the capturing group [([0-9]|10)] can hold. *)
Definition is_numeral (g : str) : Prop :=
  (exists d : codepoint, (48 <= d <= 57)%N /\ g = [d]) \/ g = lit "10".

Fixpoint group_free (r : regex) : bool :=
  match r with
  | RGroup _ => false
  | RSeq a b | RAlt a b => group_free a && group_free b
  | ROpt a => group_free a
  | _ => true
  end.

(** A match consumes a piece [w] of the text and moves the position by its
    length. *)
Definition consumes (st st' : mstate) (w : str) : Prop :=
  m_rest st = w ++ m_rest st' /\ m_pos st' = m_pos st + List.length w.

(** A match that leaves a numeral in the group and is not empty. *)
Definition captured (st st' : mstate) : Prop :=
  exists g, m_group st' = Some g /\ is_numeral g /\ m_pos st < m_pos st'.

(** ** The record of the specification

    The confidence as the specification words it, the float of each score
    it names, and what makes a record structurally valid. *)

Definition confidence_by_rule (matched found : bool) : float :=
  let score := decimal 5 1 in
  let score := if matched then fadd score (decimal 25 2) else score in
  let score := if found then fadd score (decimal 15 2) else score in
  py_round (py_min (py_max score (decimal 0 1)) (decimal 99 2)) 2.

Definition attainable_scores : list float :=
  [decimal 5 1; decimal 65 2; decimal 75 2; decimal 9 1].

Definition is_empty {A} (l : list A) : bool :=
  match l with
  | [] => true
  | _ :: _ => false
  end.

Definition valid_severity (severity : option Z) : Prop :=
  match severity with
  | Some v => (0 <= v <= 10)%Z
  | None => True
  end.

Definition valid_confidence (c : float) : Prop :=
  SFleb (decimal 0 1) c = true /\ SFleb c (decimal 99 2) = true.

Definition reads (r : pyvalue) (text : str) (symptoms codes : list str)
    (severity : option Z) (confidence : float) : Prop :=
  field r "original_text" = Some (PyStr text)
  /\ field r "extracted_symptoms" = Some (PyList (map PyStr symptoms))
  /\ field r "snomed_codes" = Some (PyList (map PyStr codes))
  /\ field r "severity" = Some (py_of_severity severity)
  /\ field r "confidence_score" = Some (PyFloat confidence).

Definition valid_record (r : pyvalue) : Prop :=
  exists text symptoms codes severity confidence,
    reads r text symptoms codes severity confidence
    /\ List.length symptoms = List.length codes
    /\ valid_severity severity
    /\ valid_confidence confidence.

(** How often a code occurs in a list of codes. *)
Definition count_code (c : str) (codes : list str) : nat :=
  List.length (filter (str_eqb c) codes).

(** The catalog gives the phrase [s] the code [c]. *)
Definition has_code (c s : str) : bool :=
  match getitem SNOMED_SYMPTOM_MAP s with
  | Ok c' => str_eqb c c'
  | Raise _ => false
  end.

(** The field names of section 3 of the specification, and those of the
    dictionary the code builds. *)
Definition spec_field_names : list str :=
  map lit ["original_text"; "extracted_symptoms"; "coded_terms"; "severity";
           "confidence_score"]%string.

Definition code_field_names : list str :=
  map lit ["original_text"; "extracted_symptoms"; "snomed_codes"; "severity";
           "confidence_score"]%string.

(** The narrative of the first scenario. *)
Definition scenario_text : str :=
  lit "I have awful pelvic pain today, maybe a 7 out of 10, and I feel really fatigued.".

(** * The conversation surface: [app.py]

    The functions of [app.py] that use the extractor and its record.
    - [st.session_state] is modelled by its one attribute, [chat_history]:
      [None] before it is set, else the list of the messages.
    - What Streamlit renders is a list of [widget] trees, one constructor
      per call of the library, with the arguments of the call.
    - [str()] of a float, of bytes, of a list and of a dict, which an
      f-string would need for such a severity, is the field of the class
      [Builtins]. *)

(** ** Builtins *)

Definition is_zero_float (f : float) : bool :=
  match f with
  | S754_zero _ => true
  | _ => false
  end.

(** [bool(v)] *)
Definition truthy (v : pyvalue) : bool :=
  match v with
  | PyNone => false
  | PyBool b => b
  | PyInt z => negb (Z.eqb z 0)
  | PyFloat f => negb (is_zero_float f)
  | PyStr s => negb (is_empty s)
  | PyBytes b => negb (is_empty b)
  | PyList l => negb (is_empty l)
  | PyDict d => negb (is_empty d)
  end.

(** [a or b] *)
Definition py_or (a b : pyvalue) : pyvalue := if truthy a then a else b.

(** [type(v).__name__] *)
Definition type_name (v : pyvalue) : str :=
  match v with
  | PyNone => lit "NoneType"
  | PyBool _ => lit "bool"
  | PyInt _ => lit "int"
  | PyFloat _ => lit "float"
  | PyStr _ => lit "str"
  | PyBytes _ => lit "bytes"
  | PyList _ => lit "list"
  | PyDict _ => lit "dict"
  end.

(** [str(z)] of an integer. *)
Definition str_of_int (z : Z) : str := lit (NilZero.string_of_int (Z.to_int z)).

Class Builtins := {
  repr_other : pyvalue -> str    (* str() of a float, bytes, list or dict *)
}.

(** [str(v)], which is what [f"{v}"] writes. *)
Definition py_str {B : Builtins} (v : pyvalue) : str :=
  match v with
  | PyNone => lit "None"
  | PyBool true => lit "True"
  | PyBool false => lit "False"
  | PyInt z => str_of_int z
  | PyStr s => s
  | _ => repr_other v
  end.

(** The exceptions of [app.py]: the [AttributeError] of a missing
    attribute, or an exception of the kinds of [exn]. *)
Inductive app_exn :=
| AttributeError (attribute : str)
| Builtin (e : exn).

Inductive outcome (A : Type) :=
| Returned (a : A)
| Failed (e : app_exn).
Arguments Returned {A} a.
Arguments Failed {A} e.

Definition lift {A} (m : result A) : outcome A :=
  match m with
  | Ok a => Returned a
  | Raise e => Failed (Builtin e)
  end.

Definition and_then {A B} (m : outcome A) (f : A -> outcome B) : outcome B :=
  match m with
  | Returned a => f a
  | Failed e => Failed e
  end.

Notation "x <~ m ;; k" := (and_then m (fun x => k))
  (at level 61, m at next level, right associativity).

(** What [sep.join(v)] iterates over. *)
Definition join_operands (v : pyvalue) : result (list pyvalue) :=
  match v with
  | PyList l => Ok l
  | PyStr s => Ok (map (fun c => PyStr [c]) s)
  | PyDict d => Ok (map (fun kv => PyStr (fst kv)) d)
  | PyBytes b => Ok (map (fun n => PyInt (Z.of_N n)) b)
  | _ => Raise (TypeError (lit "can only join an iterable"))
  end.

(** The items joined, from the item of index [i] on; an item that is not a
    string is a [TypeError] that names the first such index. *)
Fixpoint join_items (sep : str) (i : nat) (items : list pyvalue) : result str :=
  match items with
  | [] => Ok []
  | PyStr s :: t =>
      rest <- join_items sep (S i) t ;;
      Ok (if is_empty t then s else s ++ sep ++ rest)
  | x :: _ =>
      Raise (TypeError (lit "sequence item " ++ str_of_int (Z.of_nat i)
                        ++ lit ": expected str instance, " ++ type_name x
                        ++ lit " found"))
  end.

(** [sep.join(v)] *)
Definition str_join (sep : str) (v : pyvalue) : result str :=
  items <- join_operands v ;; join_items sep 0 items.

(** ** [build_response_text] *)

(** [d.get(k)] with its default [None]. *)
Definition get_or_none (d : list (str * pyvalue)) (k : string) : pyvalue :=
  match dict_get d (lit k) with
  | Some v => v
  | None => PyNone
  end.

Definition is_none (v : pyvalue) : bool :=
  match v with
  | PyNone => true
  | _ => false
  end.

Section Response.
Context {B : Builtins}.

Definition build_response_text (extracted : pyvalue) : outcome str :=
  match extracted with
  | PyDict d =>
      let symptoms := py_or (get_or_none d "extracted_symptoms") (PyList []) in
      let severity := get_or_none d "severity" in
      base <~ (if truthy symptoms
               then symptom_list <~ lift (str_join (lit ", ") symptoms) ;;
                    Returned (lit "I'm sorry you're experiencing "
                              ++ symptom_list ++ lit ".")
               else Returned (lit "Thank you for sharing how you're feeling.")) ;;
      let base :=
        if negb (is_none severity)
        then base ++ lit " You've rated this around " ++ py_str severity
                  ++ lit "/10."
        else base in
      Returned (base ++ lit " I've logged your entry so it can support a clearer clinical picture over time.")
  | _ => Failed (AttributeError (lit "get"))
  end.

End Response.

(** ** The session state and the widgets *)

Definition message := list (str * pyvalue).

Definition session_state := option (list message).

Inductive widget :=
| chat_message (name : pyvalue) (body : list widget)     (* st.chat_message *)
| markdown (body : pyvalue)                              (* st.markdown *)
| expander (label : str) (expanded : bool) (body : list widget)
                                                         (* st.expander *)
| json_view (body : pyvalue).                            (* st.json *)

(** The label of the expander: a magnifying glass (U+1F50D), then text. *)
Definition expander_label : str :=
  128269%N :: lit " View Extracted Clinical Data".

Definition init_session_state (ss : session_state) : session_state :=
  match ss with
  | None => Some []
  | Some chat_history => Some chat_history
  end.

Definition add_message (ss : session_state) (role content : str)
    (extracted : pyvalue) : outcome session_state :=
  match ss with
  | Some chat_history =>
      Returned (Some (chat_history
                      ++ [[ (lit "role", PyStr role);
                            (lit "content", PyStr content);
                            (lit "extracted", extracted) ]]))
  | None => Failed (AttributeError (lit "chat_history"))
  end.

(** The body of the loop of [render_chat_history]. *)
Definition render_message (m : message) : result widget :=
  role <- getitem m (lit "role") ;;
  content <- getitem m (lit "content") ;;
  let extracted := get_or_none m "extracted" in
  Ok (chat_message role
        (markdown content
         :: if truthy extracted
            then [expander expander_label false [json_view extracted]]
            else [])).

(** What is rendered before an exception is not kept: a failure is the
    exception alone. *)
Definition render_chat_history (ss : session_state) : outcome (list widget) :=
  match ss with
  | Some chat_history => lift (comprehension render_message chat_history)
  | None => Failed (AttributeError (lit "chat_history"))
  end.

Section ChatTab.
Context {U : UnicodeData} {B : Builtins}.

(** The block [with tab1:] of [main]; [prompt] is what [st.chat_input]
    returns.  The result is the session state and the widgets of the tab
    (the input box itself is not listed). *)
Definition chat_tab (ss : session_state) (prompt : option str)
    : outcome (session_state * list widget) :=
  history <~ render_chat_history ss ;;
  match prompt with
  | Some text =>
      if negb (is_empty text)
      then
        let shown_user :=
          chat_message (PyStr (lit "user")) [markdown (PyStr text)] in
        ss <~ add_message ss (lit "user") text PyNone ;;
        extracted <~ lift (extract_clinical_data (PyStr text)) ;;
        response_text <~ build_response_text extracted ;;
        let shown_assistant :=
          chat_message (PyStr (lit "assistant"))
            [ markdown (PyStr response_text);
              expander expander_label false [json_view extracted] ] in
        ss <~ add_message ss (lit "assistant") response_text extracted ;;
        Returned (ss, history ++ [shown_user; shown_assistant])
      else Returned (ss, history)
  | None => Returned (ss, history)
  end.

(** [main] up to the end of the chat tab: [init_session_state()], then the
    block [with tab1:].  The header and the analytics tab render widgets of
    their own and do not touch the session state. *)
Definition main_chat (ss : session_state) (prompt : option str)
    : outcome (session_state * list widget) :=
  chat_tab (init_session_state ss) prompt.

(** The session states that the reruns of the script reach from a fresh
    session, one prompt (or none) per rerun. *)
Inductive reachable : session_state -> Prop :=
| fresh : reachable None
| rerun ss prompt ss' page :
    reachable ss ->
    main_chat ss prompt = Returned (ss', page) ->
    reachable ss'.

End ChatTab.

(** ** The response in words

    The sentences of [build_response_text] for a list of symptoms and a
    severity. *)

Fixpoint join_strs (sep : str) (l : list str) : str :=
  match l with
  | [] => []
  | [s] => s
  | s :: t => s ++ sep ++ join_strs sep t
  end.

Definition thanks : str := lit "Thank you for sharing how you're feeling.".

Definition closing : str :=
  lit " I've logged your entry so it can support a clearer clinical picture over time.".

Definition opening (symptoms : list str) : str :=
  if is_empty symptoms then thanks
  else lit "I'm sorry you're experiencing " ++ join_strs (lit ", ") symptoms
       ++ lit ".".

Definition rating (severity : option Z) : str :=
  match severity with
  | Some v => lit " You've rated this around " ++ str_of_int v ++ lit "/10."
  | None => []
  end.



(** [str()] of the other values left empty: the examples that use it format
    none of them. *)
Definition no_repr : Builtins := {| repr_other := fun _ => [] |}.

(** ** The messages and the widgets of a turn *)

Definition user_message (text : str) : message :=
  [ (lit "role", PyStr (lit "user"));
    (lit "content", PyStr text);
    (lit "extracted", PyNone) ].

Definition assistant_message (response : str) (record : pyvalue) : message :=
  [ (lit "role", PyStr (lit "assistant"));
    (lit "content", PyStr response);
    (lit "extracted", record) ].

Definition shown_user (text : str) : widget :=
  chat_message (PyStr (lit "user")) [markdown (PyStr text)].

Definition shown_assistant (response : str) (record : pyvalue) : widget :=
  chat_message (PyStr (lit "assistant"))
    [ markdown (PyStr response);
      expander expander_label false [json_view record] ].

Section Conversation.
Context {U : UnicodeData} {B : Builtins}.

(** A history made of turns: the message of the user with a non-empty
    text, then the message of the assistant with the record of this text
    and the response to this record. *)
Inductive conversation : list message -> Prop :=
| conversation_start : conversation []
| conversation_turn h text record response :
    conversation h ->
    is_empty text = false ->
    extract_clinical_data (PyStr text) = Ok record ->
    build_response_text record = Returned response ->
    conversation
      (h ++ [user_message text; assistant_message response record]).

End Conversation.

(** The value of the leftmost match of a list of matches. *)
Definition leftmost_value (ms : list match_obj) : option Z :=
  match ms with
  | m :: _ => captured_value m
  | [] => None
  end.

(** A code of the catalog: 8 or 9 ASCII digits. *)
Definition is_digit (c : codepoint) : bool := N.leb 48 c && N.leb c 57.

Definition code_shaped (c : str) : bool :=
  forallb is_digit c
  && (Nat.eqb (List.length c) 8 || Nat.eqb (List.length c) 9).

(** A match whose group holds a numeral that stands in the text from the
    position [st] on. *)
Definition captured_in (st st' : mstate) : Prop :=
  exists g u v,
    m_group st' = Some g /\ is_numeral g /\ m_rest st = u ++ g ++ v.

(** * Properties *)

Ltac inv H := inversion H; subst; clear H.

(** ** Strings and lists of strings *)

Lemma str_eqb_eq (a b : str) : str_eqb a b = true <-> a = b.
Proof.
  revert b; induction a as [|x a IH]; intros [|y b]; simpl;
    try (split; [discriminate | congruence]); try tauto.
  rewrite andb_true_iff, N.eqb_eq, IH.
  split; [intros [-> ->]; reflexivity | intros E; inversion E; auto].
Qed.

Lemma str_eqb_refl (a : str) : str_eqb a a = true.
Proof. apply str_eqb_eq; reflexivity. Qed.

Lemma startswith_spec (p s : str) :
  startswith p s = true <-> exists post, s = p ++ post.
Proof.
  revert s; induction p as [|a p IH]; intros s; simpl.
  - split; [intros _; exists s; reflexivity | reflexivity].
  - destruct s as [|b s].
    + split; [discriminate | intros [post E]; discriminate].
    + rewrite andb_true_iff, N.eqb_eq, IH. split.
      * intros [-> [post ->]]. exists post; reflexivity.
      * intros [post E]. inversion E; subst. split; [reflexivity | eauto].
Qed.

(** [p in s] holds exactly when [s] is some text, then [p], then some
    text. *)
Lemma str_contains_spec (p s : str) :
  str_contains p s = true <-> exists pre post, s = pre ++ p ++ post.
Proof.
  induction s as [|c s IH]; simpl.
  - rewrite orb_false_r, startswith_spec. split.
    + intros [post E]. exists [], post. exact E.
    + intros [pre [post E]]. destruct pre; [eauto | discriminate].
  - rewrite orb_true_iff, startswith_spec, IH. split.
    + intros [[post E] | [pre [post E]]].
      * exists [], post. exact E.
      * exists (c :: pre), post. simpl. rewrite E. reflexivity.
    + intros [[|d pre] [post E]].
      * left. exists post. exact E.
      * right. inversion E; subst. eauto.
Qed.

Lemma list_contains_spec (x : str) (l : list str) :
  list_contains x l = true <-> In x l.
Proof.
  induction l as [|y l IH]; simpl.
  - split; [discriminate | tauto].
  - rewrite orb_true_iff, str_eqb_eq, IH. tauto.
Qed.

(** ** [sorted] *)

Section SortedFacts.
Variable A : Type.
Variable key : A -> nat.

Let asc (a b : A) : Prop := key a <= key b.
Let desc (a b : A) : Prop := key b <= key a.

Lemma insert_sorted_perm (x : A) (l : list A) :
  Permutation (insert_sorted key x l) (x :: l).
Proof.
  induction l as [|y l IH]; simpl; [reflexivity|].
  destruct (key x <=? key y); [reflexivity|].
  rewrite IH. apply perm_swap.
Qed.

Lemma stable_sort_perm (l : list A) : Permutation (stable_sort key l) l.
Proof.
  induction l as [|x l IH]; simpl; [reflexivity|].
  rewrite insert_sorted_perm. constructor. exact IH.
Qed.

Lemma sorted_perm (reverse : bool) (l : list A) :
  Permutation (sorted key reverse l) l.
Proof.
  unfold sorted. destruct reverse; [|apply stable_sort_perm].
  rewrite <- Permutation_rev, stable_sort_perm. symmetry. apply Permutation_rev.
Qed.

Lemma insert_sorted_asc (x : A) (l : list A) :
  StronglySorted asc l -> StronglySorted asc (insert_sorted key x l).
Proof.
  induction 1 as [|y l S IH F]; simpl.
  - repeat constructor.
  - destruct (key x <=? key y) eqn:E.
    + apply Nat.leb_le in E. constructor; [constructor; assumption|].
      constructor; [exact E|].
      eapply Forall_impl; [|exact F]. unfold asc. intros; lia.
    + apply Nat.leb_gt in E. constructor; [exact IH|].
      eapply Permutation_Forall; [symmetry; apply insert_sorted_perm|].
      constructor; [unfold asc; lia | exact F].
Qed.

Lemma stable_sort_asc (l : list A) : StronglySorted asc (stable_sort key l).
Proof.
  induction l as [|x l IH]; simpl; [constructor|].
  apply insert_sorted_asc. exact IH.
Qed.

Lemma sorted_snoc (R : A -> A -> Prop) (l : list A) (a : A) :
  StronglySorted R l -> Forall (fun x => R x a) l ->
  StronglySorted R (l ++ [a]).
Proof.
  induction 1 as [|y l S IH F]; intros Fa; simpl.
  - repeat constructor.
  - inversion Fa; subst. constructor; [auto|].
    apply Forall_app. split; [exact F | repeat constructor; assumption].
Qed.

Lemma sorted_rev (l : list A) :
  StronglySorted asc l -> StronglySorted desc (rev l).
Proof.
  induction 1 as [|y l S IH F]; simpl; [constructor|].
  apply sorted_snoc; [exact IH|].
  apply Forall_rev. exact F.
Qed.

(** With [reverse=True] the keys go down along the result. *)
Lemma sorted_reverse_desc (l : list A) :
  StronglySorted (fun a b => key b <= key a) (sorted key true l).
Proof. unfold sorted. apply sorted_rev, stable_sort_asc. Qed.

End SortedFacts.

(** ** The catalog and the keyword list *)

Lemma keywords_perm : Permutation SYMPTOM_KEYWORDS (keys SNOMED_SYMPTOM_MAP).
Proof. apply sorted_perm. Qed.

Lemma keywords_desc :
  StronglySorted (fun a b : str => List.length b <= List.length a)
                 SYMPTOM_KEYWORDS.
Proof. apply sorted_reverse_desc. Qed.

Lemma keys_nodup : NoDup (keys SNOMED_SYMPTOM_MAP).
Proof.
  unfold keys, SNOMED_SYMPTOM_MAP; simpl.
  repeat (constructor; [simpl; intuition discriminate|]). constructor.
Qed.

Lemma keywords_nodup : NoDup SYMPTOM_KEYWORDS.
Proof.
  eapply Permutation_NoDup; [symmetry; apply keywords_perm | apply keys_nodup].
Qed.

Lemma keywords_in (s : str) :
  In s SYMPTOM_KEYWORDS <-> In s (keys SNOMED_SYMPTOM_MAP).
Proof.
  split; apply Permutation_in;
    [apply keywords_perm | symmetry; apply keywords_perm].
Qed.

(** [d[k]] succeeds on every key of [d]. *)
Lemma getitem_key V (d : dict V) (k : str) :
  In k (keys d) -> exists v, getitem d k = Ok v.
Proof.
  induction d as [|[k' v] d IH]; simpl; [tauto|].
  intros H. destruct (str_eqb k' k) eqn:E; [eauto|].
  destruct H as [H | H]; [|auto].
  subst. rewrite str_eqb_refl in E. discriminate.
Qed.

Lemma getitem_missing V (d : dict V) (k : str) :
  ~ In k (keys d) -> getitem d k = Raise (KeyError k).
Proof.
  induction d as [|[k' v] d IH]; simpl; [reflexivity|].
  intros H. destruct (str_eqb k' k) eqn:E.
  - apply str_eqb_eq in E. tauto.
  - apply IH. tauto.
Qed.

(** A comprehension whose body succeeds on every element succeeds, with
    one result per element, in order. *)
Lemma comprehension_ok A B (f : A -> result B) (l : list A) :
  (forall x, In x l -> exists y, f x = Ok y) ->
  exists ys, comprehension f l = Ok ys
             /\ Forall2 (fun x y => f x = Ok y) l ys.
Proof.
  induction l as [|x l IH]; intros H; simpl.
  - exists []. split; [reflexivity | constructor].
  - destruct (H x) as [y Hy]; [left; reflexivity|].
    destruct IH as [ys [E F]]; [intros; apply H; right; assumption|].
    exists (y :: ys). rewrite Hy, E. simpl.
    split; [reflexivity | constructor; assumption].
Qed.

(** ** The matcher *)

Section RegexFacts.
Context {U : UnicodeData}.

Lemma or_else_some (a b : option mstate) (res : mstate) :
  or_else a b = Some res -> a = Some res \/ b = Some res.
Proof. destruct a; simpl; auto. Qed.

Lemma match_star_sound c k prev rest pos g res :
  match_star c k prev rest pos g = Some res ->
  exists st', star_run c (MState prev rest pos g) st' /\ k st' = Some res.
Proof.
  revert prev pos. induction rest as [|x t IH]; intros prev pos; simpl.
  - intros H. eexists; split; [apply star_stop | exact H].
  - destruct (in_cset c x) eqn:Hc.
    + intros H. apply or_else_some in H. destruct H as [H | H].
      * apply IH in H. destruct H as [st' [R K]].
        exists st'. split; [|exact K].
        eapply star_more; simpl; eauto.
      * eexists; split; [apply star_stop | exact H].
    + intros H. eexists; split; [apply star_stop | exact H].
Qed.

(** Whatever [rmatch] finds is a match of the pattern followed by a
    success of the rest. *)
Lemma rmatch_sound r : forall st k res,
  rmatch r st k = Some res ->
  exists st', matches r st st' /\ k st' = Some res.
Proof.
  induction r as [| c | | a IHa b IHb | a IHa b IHb | a IHa | c | c | a IHa];
    intros st k res; simpl.
  - intros H. exists st. split; [constructor | exact H].
  - destruct (m_rest st) as [|x t] eqn:Er; [discriminate|].
    destruct (in_cset c x) eqn:Hc; [|discriminate].
    intros H. eexists; split; [eapply m_set; eauto | exact H].
  - destruct (at_boundary st) eqn:Hb; [|discriminate].
    intros H. exists st. split; [constructor; exact Hb | exact H].
  - intros H. apply IHa in H. destruct H as [st1 [M1 H]].
    apply IHb in H. destruct H as [st2 [M2 H]].
    exists st2. split; [econstructor; eauto | exact H].
  - intros H. apply or_else_some in H. destruct H as [H | H].
    + apply IHa in H. destruct H as [st' [M H]].
      exists st'. split; [apply m_alt_l; exact M | exact H].
    + apply IHb in H. destruct H as [st' [M H]].
      exists st'. split; [apply m_alt_r; exact M | exact H].
  - intros H. apply or_else_some in H. destruct H as [H | H].
    + apply IHa in H. destruct H as [st' [M H]].
      exists st'. split; [apply m_opt_some; exact M | exact H].
    + exists st. split; [apply m_opt_none | exact H].
  - intros H. apply match_star_sound in H. destruct H as [st' [R H]].
    exists st'. split; [|exact H].
    apply m_star. destruct st; exact R.
  - destruct (m_rest st) as [|x t] eqn:Er; [discriminate|].
    destruct (in_cset c x) eqn:Hc; [|discriminate].
    intros H. apply match_star_sound in H. destruct H as [st' [R H]].
    exists st'. split; [|exact H].
    eapply m_plus; eauto.
  - intros H. apply IHa in H. destruct H as [st' [M H]].
    eexists; split; [apply m_group_; exact M | exact H].
Qed.

Lemma star_run_consumes c st st' :
  star_run c st st' -> exists w, consumes st st' w /\ m_group st' = m_group st.
Proof.
  induction 1 as [st | st x t st' Er Hc R [w [[E P] G]]].
  - exists []. repeat split. simpl. lia.
  - exists (x :: w). simpl in *. repeat split.
    + rewrite Er, E. reflexivity.
    + rewrite P. simpl. lia.
    + exact G.
Qed.

Lemma matches_consumes r st st' :
  matches r st st' -> exists w, consumes st st' w.
Proof.
  induction 1 as
    [ st | c st x t Er Hc | st Hb | a b st st1 st2 _ [w1 [E1 P1]] _ [w2 [E2 P2]]
    | a b st st' _ IH | a b st st' _ IH | a st st' _ IH | a st
    | c st st' R | c st x t st' Er Hc R | a st st' _ [w [E P]] ].
  - exists []. split; simpl; [reflexivity | lia].
  - exists [x]. split; simpl; [exact Er | lia].
  - exists []. split; simpl; [reflexivity | lia].
  - exists (w1 ++ w2). split.
    + rewrite E1, E2, app_assoc. reflexivity.
    + rewrite P2, P1, length_app. lia.
  - exact IH.
  - exact IH.
  - exact IH.
  - exists []. split; simpl; [reflexivity | lia].
  - apply star_run_consumes in R. destruct R as [w [C _]]. eauto.
  - apply star_run_consumes in R. destruct R as [w [[E P] _]].
    exists (x :: w). simpl in *. split.
    + rewrite Er, E. reflexivity.
    + rewrite P. simpl. lia.
  - exists w. split; simpl; assumption.
Qed.

Lemma matches_group_free r st st' :
  matches r st st' -> group_free r = true -> m_group st' = m_group st.
Proof.
  induction 1 as
    [ st | c st x t Er Hc | st Hb | a b st st1 st2 _ IH1 _ IH2
    | a b st st' _ IH | a b st st' _ IH | a st st' _ IH | a st
    | c st st' R | c st x t st' Er Hc R | a st st' _ IH ];
    simpl; intros F; try reflexivity; try discriminate.
  - apply andb_true_iff in F. destruct F. rewrite IH2, IH1 by assumption. reflexivity.
  - apply andb_true_iff in F. destruct F. auto.
  - apply andb_true_iff in F. destruct F. auto.
  - auto.
  - apply star_run_consumes in R. destruct R as [w [_ G]]. exact G.
  - apply star_run_consumes in R. destruct R as [w [_ G]]. exact G.
Qed.

Lemma digit_or_ten_captured st st' :
  matches digit_or_ten st st' -> captured st st'.
Proof.
  unfold digit_or_ten, captured. intros H. inv H.
  match goal with M : matches (RAlt _ _) _ _ |- _ => inv M end.
  - match goal with M : matches (RSet _) _ _ |- _ => inv M end.
    cbn [m_pos m_rest m_group m_prev in_cset] in *.
    eexists. split; [reflexivity|].
    match goal with E : m_rest st = _ |- _ => rewrite E end.
    replace (S (m_pos st) - m_pos st) with 1 by lia.
    split; [|lia]. left. exists x. split; [|reflexivity].
    match goal with C : _ && _ = true |- _ =>
      apply andb_true_iff in C; destruct C as [C1 C2];
      apply N.leb_le in C1; apply N.leb_le in C2 end.
    lia.
  - match goal with M : matches (RSeq _ _) _ _ |- _ => inv M end.
    match goal with M : matches (RSeq _ _) _ _ |- _ => inv M end.
    match goal with M : matches REmpty _ _ |- _ => inv M end.
    match goal with M : matches (RSet (CChar 48)) _ _ |- _ => inv M end.
    match goal with M : matches (RSet (CChar 49)) _ _ |- _ => inv M end.
    cbn [m_pos m_rest m_group m_prev in_cset] in *.
    eexists. split; [reflexivity|].
    repeat match goal with C : N.eqb _ _ = true |- _ =>
      apply N.eqb_eq in C; subst end.
    repeat match goal with E : _ = _ :: _ |- _ => rewrite E end.
    replace (S (S (m_pos st)) - m_pos st) with 2 by lia.
    split; [|lia]. right. reflexivity.
Qed.

Lemma captured_tail post st st' :
  group_free post = true ->
  matches (RSeq digit_or_ten post) st st' -> captured st st'.
Proof.
  intros F H. inv H.
  match goal with M : matches digit_or_ten _ _ |- _ =>
    apply digit_or_ten_captured in M; destruct M as [g [G [Nm P]]] end.
  match goal with M : matches post _ _ |- _ =>
    pose proof (matches_group_free M F) as G';
    apply matches_consumes in M; destruct M as [w [_ P']] end.
  exists g. split; [congruence|]. split; [exact Nm | lia].
Qed.

Lemma captured_skip pre rest st st' :
  (forall st1, matches rest st1 st' -> captured st1 st') ->
  matches (RSeq pre rest) st st' -> captured st st'.
Proof.
  intros K H. inv H.
  match goal with M : matches rest _ _ |- _ =>
    apply K in M; destruct M as [g [G [Nm P]]] end.
  match goal with M : matches pre _ _ |- _ =>
    apply matches_consumes in M; destruct M as [w [_ P']] end.
  exists g. split; [exact G|]. split; [exact Nm | lia].
Qed.

(** Each of the three patterns captures a numeral and matches no empty
    string. *)
Lemma patterns_captured p st st' :
  In p patterns -> matches p st st' -> captured st st'.
Proof.
  unfold patterns. simpl. intros [<- | [<- | [<- | []]]].
  - apply captured_skip. intros st1. apply captured_tail. reflexivity.
  - apply captured_skip. intros st1. apply captured_tail. reflexivity.
  - apply captured_skip. intros st1. apply captured_skip. intros st2.
    apply captured_skip. intros st3. apply captured_tail. reflexivity.
Qed.

Lemma match_at_groups r prev rest pos m :
  match_at r prev rest pos = Some m -> exists x, groups m = [x].
Proof.
  unfold match_at. destruct (rmatch _ _ _); [|discriminate].
  intros E. inv E. simpl. eauto.
Qed.

Lemma match_at_captured p prev rest pos m :
  In p patterns -> match_at p prev rest pos = Some m ->
  exists g, groups m = [Some g] /\ is_numeral g /\ span_start m < span_end m.
Proof.
  unfold match_at. intros Hp.
  destruct (rmatch _ _ _) as [st'|] eqn:E; [|discriminate].
  intros Em. inv Em. simpl.
  apply rmatch_sound in E. destruct E as [st1 [M E]]. inv E.
  apply (patterns_captured Hp) in M. destruct M as [g [G [Nm P]]].
  exists g. simpl in P. rewrite G. auto.
Qed.

(** Every match object of [finditer] is a match at some position. *)
Lemma finditer_from_in r m : forall rest skip prev pos,
  In m (finditer_from r skip prev rest pos) ->
  exists prev' rest' pos', match_at r prev' rest' pos' = Some m.
Proof.
  induction rest as [|x t IH]; intros skip prev pos; simpl.
  - destruct skip; [|intros []].
    destruct (match_at r prev [] pos) eqn:E; [|intros []].
    intros [<- | []]. eauto.
  - destruct skip; [|apply IH].
    destruct (match_at r prev (x :: t) pos) eqn:E; [|apply IH].
    intros [<- | H]; [eauto | eapply IH; eauto].
Qed.

Lemma finditer_groups r s :
  Forall (fun m => exists x, groups m = [x]) (finditer r s).
Proof.
  apply Forall_forall. intros m H.
  apply finditer_from_in in H. destruct H as [prev [rest [pos H]]].
  eapply match_at_groups; eauto.
Qed.

(** The matches of the three patterns are not empty, which is what
    [finditer_from] relies on. *)
Lemma match_nonempty p s m :
  In p patterns -> In m (finditer p s) -> span_start m < span_end m.
Proof.
  intros Hp H. apply finditer_from_in in H.
  destruct H as [prev [rest [pos H]]].
  apply (match_at_captured _ _ _ Hp) in H. destruct H as [g [_ [_ H]]].
  exact H.
Qed.

End RegexFacts.

(** ** [int] and the loops of [_extract_severity] *)

Lemma int_digits_raise s : forall acc e,
  int_digits acc s = Raise e -> e = ValueError.
Proof.
  induction s as [|c t IH]; intros acc e; simpl; [discriminate|].
  destruct (digit_of c); [apply IH | congruence].
Qed.

Lemma int_of_str_raise s e : int_of_str s = Raise e -> e = ValueError.
Proof.
  intros H. destruct s; [inversion H; reflexivity|].
  exact (int_digits_raise _ _ H).
Qed.

(** [int] succeeds on what the group holds, and gives a number of
    [0..10]. *)
Lemma numeral_value g :
  is_numeral g -> exists v, int_of_str g = Ok v /\ (0 <= v <= 10)%Z.
Proof.
  intros [[d [[Lo Hi] ->]] | ->].
  - exists (Z.of_N d - 48)%Z. unfold int_of_str, int_digits, digit_of.
    apply N.leb_le in Lo as Lo'. apply N.leb_le in Hi as Hi'.
    rewrite Lo', Hi'. simpl. split; [f_equal; lia | lia].
  - exists 10%Z. split; [reflexivity | lia].
Qed.

Lemma first_value_range ms v :
  first_value ms = Some v -> (0 <= v <= 10)%Z.
Proof.
  induction ms as [|m ms IH]; simpl; [discriminate|].
  destruct (captured_value m) as [w|] eqn:E; [|exact IH].
  intros Ev. inversion Ev; subst. unfold captured_value in E.
  destruct (nth 0 (groups m) None); [|discriminate].
  destruct (int_of_str s); [|discriminate].
  destruct ((0 <=? a)%Z && (a <=? 10)%Z) eqn:R; [|discriminate].
  inversion E; subst. apply andb_true_iff in R. lia.
Qed.

(** The inner loop returns the first valid captured value. *)
Lemma scan_matches_spec ms :
  Forall (fun m => exists x, groups m = [x]) ms ->
  scan_matches ms = Ok (first_value ms).
Proof.
  induction 1 as [|m ms [x Hx] _ IH]; simpl; [reflexivity|].
  unfold captured_value. rewrite Hx. simpl.
  destruct x as [g|]; simpl; [|exact IH].
  destruct (int_of_str g) as [v|e] eqn:E.
  - destruct ((0 <=? v)%Z && (v <=? 10)%Z); [reflexivity | exact IH].
  - apply int_of_str_raise in E. subst. exact IH.
Qed.

Section SeverityFacts.
Context {U : UnicodeData}.

Lemma scan_patterns_spec ps lowered :
  scan_patterns ps lowered = Ok (severity_by_rules ps lowered).
Proof.
  induction ps as [|p ps IH]; simpl; [reflexivity|].
  rewrite scan_matches_spec by apply finditer_groups. simpl.
  destruct (first_value (finditer p lowered)); [reflexivity | exact IH].
Qed.

Lemma severity_by_rules_range ps lowered v :
  severity_by_rules ps lowered = Some v -> (0 <= v <= 10)%Z.
Proof.
  induction ps as [|p ps IH]; simpl; [discriminate|].
  destruct (first_value (finditer p lowered)) eqn:E; [|exact IH].
  intros Ev. inversion Ev; subst. eapply first_value_range; eauto.
Qed.

(** Every match of a severity pattern carries a valid value, so that a rule
    yields the value of its leftmost match. *)
Lemma every_match_valid p lowered m :
  In p patterns -> In m (finditer p lowered) ->
  exists v, captured_value m = Some v /\ (0 <= v <= 10)%Z.
Proof.
  intros Hp H. apply finditer_from_in in H.
  destruct H as [prev [rest [pos H]]].
  apply (match_at_captured _ _ _ Hp) in H. destruct H as [g [G [Nm _]]].
  apply numeral_value in Nm. destruct Nm as [v [E R]].
  exists v. unfold captured_value. rewrite G. simpl. rewrite E.
  split; [|exact R].
  replace ((0 <=? v)%Z && (v <=? 10)%Z) with true; [reflexivity|].
  symmetry. apply andb_true_iff. split; apply Z.leb_le; lia.
Qed.

Lemma _extract_severity_spec text :
  _extract_severity text = Ok (severity_by_rules patterns (str_lower text)).
Proof. apply scan_patterns_spec. Qed.

End SeverityFacts.

(** ** [_extract_symptoms] *)

Lemma found_loop (present : str -> bool) (l acc : list str) :
  fold_left (fun found keyword =>
               if present keyword then found ++ [keyword] else found) l acc
  = acc ++ filter present l.
Proof.
  revert acc. induction l as [|k l IH]; intros acc; simpl.
  - rewrite app_nil_r. reflexivity.
  - rewrite IH. destruct (present k); [|reflexivity].
    rewrite <- app_assoc. reflexivity.
Qed.

(** The second loop leaves a list without repetition as it is. *)
Lemma dedup_loop (l acc : list str) :
  NoDup (acc ++ l) ->
  fold_left (fun deduped s =>
               if negb (list_contains s deduped) then deduped ++ [s]
               else deduped) l acc
  = acc ++ l.
Proof.
  revert acc. induction l as [|s l IH]; intros acc H; simpl.
  - rewrite app_nil_r. reflexivity.
  - destruct (list_contains s acc) eqn:E; simpl.
    + apply list_contains_spec in E. apply NoDup_remove_2 in H.
      exfalso. apply H. apply in_or_app. left. exact E.
    + rewrite IH; rewrite <- app_assoc; [reflexivity | exact H].
Qed.

Section SymptomFacts.
Context {U : UnicodeData}.

Lemma _extract_symptoms_filter text :
  _extract_symptoms text
  = filter (fun k => str_contains k (str_lower text)) SYMPTOM_KEYWORDS.
Proof.
  unfold _extract_symptoms. rewrite found_loop. cbn [app].
  apply (dedup_loop _ []). cbn [app].
  apply NoDup_filter, keywords_nodup.
Qed.

Lemma _extract_symptoms_nodup text : NoDup (_extract_symptoms text).
Proof.
  rewrite _extract_symptoms_filter. apply NoDup_filter, keywords_nodup.
Qed.

Lemma _extract_symptoms_in text s :
  In s (_extract_symptoms text) <->
  In s (keys SNOMED_SYMPTOM_MAP) /\ str_contains s (str_lower text) = true.
Proof.
  rewrite _extract_symptoms_filter, filter_In, keywords_in. reflexivity.
Qed.

Lemma lookup_ok text :
  exists codes,
    comprehension (getitem SNOMED_SYMPTOM_MAP) (_extract_symptoms text)
    = Ok codes
    /\ Forall2 (fun s c => getitem SNOMED_SYMPTOM_MAP s = Ok c)
               (_extract_symptoms text) codes.
Proof.
  apply comprehension_ok. intros s H.
  apply _extract_symptoms_in in H. apply getitem_key, H.
Qed.

End SymptomFacts.

Lemma filter_swap A (f g : A -> bool) (l : list A) :
  filter f (filter g l) = filter g (filter f l).
Proof.
  induction l as [|x l IH]; simpl; [reflexivity|].
  destruct (g x) eqn:G, (f x) eqn:Fx; simpl;
    rewrite ?G, ?Fx, IH; reflexivity.
Qed.

(** Counting a code among the codes is counting the phrases that the
    catalog gives this code. *)
Lemma count_code_parallel (c : str) (l codes : list str) :
  Forall2 (fun s c' => getitem SNOMED_SYMPTOM_MAP s = Ok c') l codes ->
  count_code c codes = List.length (filter (has_code c) l).
Proof.
  unfold count_code.
  induction 1 as [|s c' l codes E _ IH]; [reflexivity|].
  cbn [filter]. unfold has_code at 1. rewrite E.
  destruct (str_eqb c c'); cbn [List.length]; rewrite IH; reflexivity.
Qed.

(** ** [_compute_confidence] *)

Lemma _compute_confidence_rule n b :
  _compute_confidence n b = confidence_by_rule (n >? 0)%Z b.
Proof. reflexivity. Qed.

Lemma confidence_by_rule_table matched found :
  confidence_by_rule matched found
  = match matched, found with
    | false, false => decimal 5 1
    | false, true => decimal 65 2
    | true, false => decimal 75 2
    | true, true => decimal 9 1
    end.
Proof. destruct matched, found; vm_compute; reflexivity. Qed.

Lemma confidence_by_rule_bounds matched found :
  valid_confidence (confidence_by_rule matched found)
  /\ SFleb (confidence_by_rule matched found) (decimal 9 1) = true
  /\ In (confidence_by_rule matched found) attainable_scores.
Proof.
  rewrite confidence_by_rule_table. unfold valid_confidence, attainable_scores.
  destruct matched, found; simpl;
    repeat split; try (vm_compute; reflexivity); tauto.
Qed.

Lemma length_positive A (l : list A) :
  (Z.of_nat (List.length l) >? 0)%Z = negb (is_empty l).
Proof. destruct l; reflexivity. Qed.

(** ** [json.dumps] *)

Lemma json_dumps_strs (l : list str) :
  json_dumps (PyList (map PyStr l)) = Ok (JArray (map JString l)).
Proof.
  induction l as [|s l IH]; [reflexivity|].
  simpl in *.
  match type of IH with
  | bind ?m _ = _ => destruct m as [ys|e]; simpl in *; [|discriminate]
  end.
  inversion IH; subst. reflexivity.
Qed.

Lemma json_dumps_dict (d : list (str * pyvalue)) (members : list (str * json)) :
  Forall2 (fun kv km => fst kv = fst km /\ json_dumps (snd kv) = Ok (snd km))
          d members ->
  json_dumps (PyDict d) = Ok (JObject members).
Proof.
  induction 1 as [|[k v] [k' j] d members [Ek Ej] _ IH]; [reflexivity|].
  simpl in *. subst k'. rewrite Ej. simpl.
  match type of IH with
  | bind ?m _ = _ => destruct m as [ys|e]; simpl in *; [|discriminate]
  end.
  inversion IH; subst. reflexivity.
Qed.

(** ** [extract_clinical_data] *)

Section ExtractFacts.
Context {U : UnicodeData}.

(** On a string the extractor returns, and this is the dictionary. *)
Lemma extract_text text :
  exists codes,
    Forall2 (fun s c => getitem SNOMED_SYMPTOM_MAP s = Ok c)
            (_extract_symptoms text) codes
    /\ extract_clinical_data (PyStr text)
       = Ok (PyDict
               [ (lit "original_text", PyStr text);
                 (lit "extracted_symptoms",
                  PyList (map PyStr (_extract_symptoms text)));
                 (lit "snomed_codes", PyList (map PyStr codes));
                 (lit "severity",
                  py_of_severity
                    (severity_by_rules patterns (str_lower text)));
                 (lit "confidence_score",
                  PyFloat
                    (confidence_by_rule
                       (negb (is_empty (_extract_symptoms text)))
                       (is_not_none
                          (severity_by_rules patterns (str_lower text))))) ]).
Proof.
  destruct (lookup_ok text) as [codes [E F]].
  exists codes. split; [exact F|].
  unfold extract_clinical_data. rewrite E, _extract_severity_spec. simpl.
  rewrite _compute_confidence_rule, length_positive. reflexivity.
Qed.

Lemma extract_reads text :
  exists r codes,
    extract_clinical_data (PyStr text) = Ok r
    /\ Forall2 (fun s c => getitem SNOMED_SYMPTOM_MAP s = Ok c)
               (_extract_symptoms text) codes
    /\ reads r text (_extract_symptoms text) codes
             (severity_by_rules patterns (str_lower text))
             (confidence_by_rule
                (negb (is_empty (_extract_symptoms text)))
                (is_not_none (severity_by_rules patterns (str_lower text)))).
Proof.
  destruct (extract_text text) as [codes [F E]].
  eexists. exists codes. split; [exact E|]. split; [exact F|].
  repeat split; reflexivity.
Qed.

Lemma extract_valid text :
  exists r, extract_clinical_data (PyStr text) = Ok r /\ valid_record r.
Proof.
  destruct (extract_reads text) as [r [codes [E [F R]]]].
  exists r. split; [exact E|].
  do 5 eexists. split; [exact R|].
  split; [eapply Forall2_length; exact F|].
  split.
  - destruct (severity_by_rules patterns (str_lower text)) eqn:S; simpl;
      [eapply severity_by_rules_range; exact S | exact I].
  - exact (proj1 (confidence_by_rule_bounds _ _)).
Qed.

End ExtractFacts.

(** * The claims *)

Section Claims.
Context {U : UnicodeData}.

(** C1. For every string input the record holds as many codes as symptoms,
    the code at each index is the catalog code of the symptom at that
    index, and the confidence score lies between 0.0 and 0.99. *)
Theorem codes_parallel_and_confidence_bounded (text : str) :
  exists r symptoms codes severity confidence,
    extract_clinical_data (PyStr text) = Ok r
    /\ reads r text symptoms codes severity confidence
    /\ List.length symptoms = List.length codes
    /\ Forall2 (fun s c => getitem SNOMED_SYMPTOM_MAP s = Ok c) symptoms codes
    /\ SFleb (decimal 0 1) confidence = true
    /\ SFleb confidence (decimal 99 2) = true.
Proof.
  destruct (extract_reads text) as [r [codes [E [F R]]]].
  exists r. do 4 eexists. split; [exact E|]. split; [exact R|].
  split; [eapply Forall2_length; exact F|]. split; [exact F|].
  exact (proj1 (confidence_by_rule_bounds _ _)).
Qed.

(** C2. For every string input the symptoms of the record are the catalog
    phrases that occur in the lowercased input, in the order of the keyword
    list (the catalog keys, longest first), none of them twice; when no
    catalog phrase occurs in the lowercased input, the symptoms and the
    codes are both empty. *)
Theorem symptoms_are_the_phrases_present (text : str) :
  exists r codes severity confidence,
    extract_clinical_data (PyStr text) = Ok r
    /\ reads r text (_extract_symptoms text) codes severity confidence
    /\ _extract_symptoms text
       = filter (fun k => str_contains k (str_lower text)) SYMPTOM_KEYWORDS
    /\ Permutation SYMPTOM_KEYWORDS (keys SNOMED_SYMPTOM_MAP)
    /\ StronglySorted (fun a b : str => List.length b <= List.length a)
                      SYMPTOM_KEYWORDS
    /\ NoDup (_extract_symptoms text)
    /\ (forall p, In p (_extract_symptoms text) <->
                  In p (keys SNOMED_SYMPTOM_MAP)
                  /\ exists pre post, str_lower text = pre ++ p ++ post)
    /\ ((forall p, In p (keys SNOMED_SYMPTOM_MAP) ->
                   str_contains p (str_lower text) = false) ->
        _extract_symptoms text = [] /\ codes = []).
Proof.
  destruct (extract_reads text) as [r [codes [E [F R]]]].
  exists r, codes. do 2 eexists. split; [exact E|]. split; [exact R|].
  split; [apply _extract_symptoms_filter|].
  split; [apply keywords_perm|].
  split; [apply keywords_desc|].
  split; [apply _extract_symptoms_nodup|].
  split.
  - intros p. rewrite _extract_symptoms_in, str_contains_spec. reflexivity.
  - intros H.
    assert (N : _extract_symptoms text = []).
    { destruct (_extract_symptoms text) as [|s l] eqn:S; [reflexivity|].
      assert (In s (_extract_symptoms text)) as Hs
        by (rewrite S; left; reflexivity).
      apply _extract_symptoms_in in Hs. destruct Hs as [K C].
      rewrite (H s K) in C. discriminate. }
    split; [exact N|]. rewrite N in F. inversion F. reflexivity.
Qed.

(** C3. For every string input the severity is what the three rules give,
    taken in their order (slash, "out of", bare number): each rule is
    scanned left to right for the first captured value that parses as an
    integer in [0,10], the first rule that has one decides, and the severity
    is absent when none has; a severity that is present is an integer in
    [0,10]. *)
Theorem severity_by_rule_priority (text : str) :
  _extract_severity text
  = Ok (severity_by_rules [pattern_slash; pattern_out_of; pattern_bare]
                          (str_lower text))
  /\ valid_severity
       (severity_by_rules [pattern_slash; pattern_out_of; pattern_bare]
                          (str_lower text))
  /\ exists r symptoms codes confidence,
       extract_clinical_data (PyStr text) = Ok r
       /\ reads r text symptoms codes
                (severity_by_rules [pattern_slash; pattern_out_of; pattern_bare]
                                   (str_lower text))
                confidence.
Proof.
  split; [apply _extract_severity_spec|]. split.
  - destruct (severity_by_rules _ _) eqn:S; simpl;
      [eapply severity_by_rules_range; exact S | exact I].
  - destruct (extract_reads text) as [r [codes [E [F R]]]].
    exists r. do 3 eexists. split; [exact E | exact R].
Qed.

(** C4. For every string input the confidence score is 0.5, plus 0.25 when
    a symptom matched, plus 0.15 when a severity was found, clamped to
    [0.0, 0.99] and rounded to 2 decimals: it is 0.5, 0.65, 0.75 or 0.9,
    and 0.9 is the largest score and is reached. *)
Theorem confidence_is_one_of_four (text : str) :
  exists r symptoms codes severity confidence,
    extract_clinical_data (PyStr text) = Ok r
    /\ reads r text symptoms codes severity confidence
    /\ confidence
       = confidence_by_rule (negb (is_empty symptoms)) (is_not_none severity)
    /\ confidence
       = match symptoms, severity with
         | [], None => decimal 5 1
         | [], Some _ => decimal 65 2
         | _ :: _, None => decimal 75 2
         | _ :: _, Some _ => decimal 9 1
         end
    /\ In confidence attainable_scores
    /\ SFleb confidence (decimal 9 1) = true
    /\ _compute_confidence 1 true = decimal 9 1.
Proof.
  destruct (extract_reads text) as [r [codes [E [F R]]]].
  exists r. do 4 eexists. split; [exact E|]. split; [exact R|].
  split; [reflexivity|].
  split.
  - rewrite confidence_by_rule_table.
    destruct (_extract_symptoms text), (severity_by_rules _ _); reflexivity.
  - destruct (confidence_by_rule_bounds
                (negb (is_empty (_extract_symptoms text)))
                (is_not_none (severity_by_rules patterns (str_lower text))))
      as [_ [Max Att]].
    split; [exact Att|]. split; [exact Max | vm_compute; reflexivity].
Qed.

(** C8. For every string input the field [original_text] of the record is
    the input itself, while the symptoms are matched on its lowercased
    copy. *)
Theorem original_text_is_the_input (text : str) :
  exists r symptoms codes severity confidence,
    extract_clinical_data (PyStr text) = Ok r
    /\ reads r text symptoms codes severity confidence
    /\ field r "original_text" = Some (PyStr text)
    /\ symptoms
       = filter (fun k => str_contains k (str_lower text)) SYMPTOM_KEYWORDS.
Proof.
  destruct (extract_reads text) as [r [codes [E [F R]]]].
  exists r. do 4 eexists. split; [exact E|]. split; [exact R|].
  split; [apply R | apply _extract_symptoms_filter].
Qed.

(** C9. For every string input each element of the list that the symptom
    matcher returns is a key of the catalog, the lookup of its code
    succeeds, and so does the comprehension that builds the codes. *)
Theorem code_lookup_never_fails (text : str) :
  Forall (fun s => In s (keys SNOMED_SYMPTOM_MAP)
                   /\ exists c, getitem SNOMED_SYMPTOM_MAP s = Ok c)
         (_extract_symptoms text)
  /\ exists codes,
       comprehension (getitem SNOMED_SYMPTOM_MAP) (_extract_symptoms text)
       = Ok codes.
Proof.
  split.
  - apply Forall_forall. intros s H. apply _extract_symptoms_in in H.
    split; [apply H | apply getitem_key, H].
  - destruct (lookup_ok text) as [codes [E _]]. eauto.
Qed.

(** C6, as the code has it. For every string input the record is
    serializable, and the field names of the document are original_text,
    extracted_symptoms, snomed_codes, severity and confidence_score. *)
Theorem record_serializable_with_code_names (text : str) :
  exists r doc,
    extract_clinical_data (PyStr text) = Ok r
    /\ json_dumps r = Ok doc
    /\ field_names doc = code_field_names.
Proof.
  destruct (extract_text text) as [codes [_ E]].
  eexists.
  exists (JObject
            [ (lit "original_text", JString text);
              (lit "extracted_symptoms",
               JArray (map JString (_extract_symptoms text)));
              (lit "snomed_codes", JArray (map JString codes));
              (lit "severity",
               match severity_by_rules patterns (str_lower text) with
               | Some v => JInt v
               | None => JNull
               end);
              (lit "confidence_score",
               JFloat
                 (confidence_by_rule
                    (negb (is_empty (_extract_symptoms text)))
                    (is_not_none
                       (severity_by_rules patterns (str_lower text))))) ]).
  split; [exact E|]. split; [|reflexivity].
  apply json_dumps_dict.
  repeat (constructor; [split; [reflexivity|] |]); cbn [snd].
  - reflexivity.
  - apply json_dumps_strs.
  - apply json_dumps_strs.
  - destruct (severity_by_rules patterns (str_lower text)); reflexivity.
  - reflexivity.
  - constructor.
Qed.

(** C7. The extractor raises exactly when its argument is not a string, and
    then it raises the [TypeError] of its first line and nothing else; on
    every string it returns a structurally valid record. *)
Theorem raises_exactly_on_non_text (v : pyvalue) :
  (forall e, extract_clinical_data v = Raise e <->
             isinstance_str v = false
             /\ e = TypeError (lit "user_text must be a string"))
  /\ (isinstance_str v = true ->
      exists r, extract_clinical_data v = Ok r /\ valid_record r).
Proof.
  destruct v as [| b | z | f | text | b | l | d];
    try (split;
         [ intros e; split;
           [ intros H; inversion H; split; reflexivity
           | intros [_ ->]; reflexivity ]
         | discriminate ]).
  destruct (extract_valid text) as [r [E V]]. split.
  - intros e. rewrite E. split; [discriminate | intros [H _]; discriminate].
  - intros _. exists r. split; assumption.
Qed.

(** C10. The symptoms of a record never hold a phrase twice, but its codes
    may repeat: when the lowercased input contains both "pelvic pain" and
    "abdominal pain", the code 21522001 stands twice among the codes. *)
Theorem phrases_deduplicated_codes_not (text : str) :
  NoDup (_extract_symptoms text)
  /\ (str_contains (lit "pelvic pain") (str_lower text) = true ->
      str_contains (lit "abdominal pain") (str_lower text) = true ->
      exists r codes severity confidence,
        extract_clinical_data (PyStr text) = Ok r
        /\ reads r text (_extract_symptoms text) codes severity confidence
        /\ In (lit "pelvic pain") (_extract_symptoms text)
        /\ In (lit "abdominal pain") (_extract_symptoms text)
        /\ count_code (lit "21522001") codes = 2).
Proof.
  split; [apply _extract_symptoms_nodup|].
  intros Hp Ha.
  destruct (extract_reads text) as [r [codes [E [F R]]]].
  exists r, codes. do 2 eexists. split; [exact E|]. split; [exact R|].
  split; [apply _extract_symptoms_in; split; [simpl; tauto | exact Hp]|].
  split; [apply _extract_symptoms_in; split; [simpl; tauto | exact Ha]|].
  rewrite (count_code_parallel _ F), _extract_symptoms_filter, filter_swap.
  change (filter (has_code (lit "21522001")) SYMPTOM_KEYWORDS)
    with [lit "abdominal pain"; lit "pelvic pain"].
  cbn [filter]. rewrite Hp, Ha. reflexivity.
Qed.

End Claims.

(** * Scenarios, on the tables of Latin-1 *)

(** C5. On the narrative of the first scenario the extractor returns the
    symptoms "pelvic pain" then "fatigue", the codes 21522001 and 84229001,
    the severity 7 and the confidence 0.9. *)
Theorem scenario_pelvic_pain_and_fatigue :
  exists r,
    extract_clinical_data (U := Latin1) (PyStr scenario_text) = Ok r
    /\ reads r scenario_text
             [lit "pelvic pain"; lit "fatigue"]
             [lit "21522001"; lit "84229001"]
             (Some 7%Z) (decimal 9 1).
Proof.
  eexists. split; [vm_compute; reflexivity|].
  repeat split; vm_compute; reflexivity.
Qed.

(** C6, as the specification has it, fails on the empty string: the record
    is serialized, and no field of the document is named coded_terms, so
    that the field names are not those of section 3. *)
Lemma field_names_differ_from_section_3 :
  exists r doc,
    extract_clinical_data (U := Latin1) (PyStr (lit "")) = Ok r
    /\ json_dumps r = Ok doc
    /\ ~ In (lit "coded_terms") (field_names doc)
    /\ In (lit "snomed_codes") (field_names doc)
    /\ field_names doc <> spec_field_names.
Proof.
  eexists. eexists. split; [vm_compute; reflexivity|].
  split; [vm_compute; reflexivity|].
  split; [|split].
  - vm_compute. intuition discriminate.
  - vm_compute. tauto.
  - vm_compute. discriminate.
Qed.

(** C2 at a narrative that names no symptom. *)
Lemma symptoms_are_the_phrases_present_witness :
  exists r codes severity confidence,
    extract_clinical_data (U := Latin1) (PyStr (lit "All is well.")) = Ok r
    /\ reads r (lit "All is well.") [] codes severity confidence
    /\ codes = [].
Proof.
  destruct (symptoms_are_the_phrases_present (U := Latin1)
              (lit "All is well."))
    as [r [codes [sev [conf [E [R [_ [_ [_ [_ [_ H]]]]]]]]]]].
  destruct H as [N C].
  - intros p K. simpl in K.
    repeat (destruct K as [<- | K]; [vm_compute; reflexivity|]).
    destruct K.
  - rewrite N in R. exists r, codes, sev, conf. auto.
Defined.

(** C7 at a number, at [None] and at the empty string. *)
Lemma raises_exactly_on_non_text_witness :
  extract_clinical_data (U := Latin1) (PyInt 7)
  = Raise (TypeError (lit "user_text must be a string"))
  /\ extract_clinical_data (U := Latin1) PyNone
     = Raise (TypeError (lit "user_text must be a string"))
  /\ exists r,
       extract_clinical_data (U := Latin1) (PyStr (lit "")) = Ok r
       /\ valid_record r.
Proof.
  split; [|split].
  - apply (proj1 (raises_exactly_on_non_text (U := Latin1) (PyInt 7))).
    split; reflexivity.
  - apply (proj1 (raises_exactly_on_non_text (U := Latin1) PyNone)).
    split; reflexivity.
  - apply (proj2 (raises_exactly_on_non_text (U := Latin1) (PyStr (lit "")))).
    reflexivity.
Defined.

(** C10 at a narrative with both phrases. *)
Lemma phrases_deduplicated_codes_not_witness :
  exists r codes severity confidence,
    extract_clinical_data (U := Latin1)
      (PyStr (lit "Pelvic pain and abdominal pain since Monday")) = Ok r
    /\ reads r (lit "Pelvic pain and abdominal pain since Monday")
             [lit "abdominal pain"; lit "pelvic pain"]
             codes severity confidence
    /\ count_code (lit "21522001") codes = 2.
Proof.
  destruct (proj2 (phrases_deduplicated_codes_not (U := Latin1)
                     (lit "Pelvic pain and abdominal pain since Monday")))
    as [r [codes [sev [conf [E [R [_ [_ C]]]]]]]];
    [vm_compute; reflexivity | vm_compute; reflexivity |].
  exists r, codes, sev, conf. split; [exact E|]. split; [exact R | exact C].
Defined.

(** The other scenarios of the specification and the examples of the
    docstring of [_extract_severity]. *)

Example scenario_lower_back_pain :
  exists r,
    extract_clinical_data (U := Latin1)
      (PyStr (lit "Lower back pain is killing me, it's like 9/10 right now."))
    = Ok r
    /\ reads r (lit "Lower back pain is killing me, it's like 9/10 right now.")
             [lit "lower back pain"] [lit "279039007"]
             (Some 9%Z) (decimal 9 1).
Proof.
  eexists. split; [vm_compute; reflexivity|].
  repeat split; vm_compute; reflexivity.
Qed.

Example scenario_headache_and_fatigue :
  exists r,
    extract_clinical_data (U := Latin1)
      (PyStr (lit "Terrible headache and fatigue, couldn't sleep at all."))
    = Ok r
    /\ reads r (lit "Terrible headache and fatigue, couldn't sleep at all.")
             [lit "headache"; lit "fatigue"] [lit "25064002"; lit "84229001"]
             None (decimal 75 2).
Proof.
  eexists. split; [vm_compute; reflexivity|].
  repeat split; vm_compute; reflexivity.
Qed.

Example scenario_empty_string :
  exists r,
    extract_clinical_data (U := Latin1) (PyStr (lit "")) = Ok r
    /\ reads r (lit "") [] [] None (decimal 5 1).
Proof.
  eexists. split; [vm_compute; reflexivity|].
  repeat split; vm_compute; reflexivity.
Qed.

Example severity_of_docstring_examples :
  map (_extract_severity (U := Latin1))
      [lit "pain is 7"; lit "7/10"; lit "7 out of 10"; lit "about a 3 today"]
  = [Ok (Some 7%Z); Ok (Some 7%Z); Ok (Some 7%Z); Ok (Some 3%Z)].
Proof. vm_compute. reflexivity. Qed.

Example severity_only_score :
  exists r,
    extract_clinical_data (U := Latin1) (PyStr (lit "About 4 today")) = Ok r
    /\ reads r (lit "About 4 today") [] [] (Some 4%Z) (decimal 65 2).
Proof.
  eexists. split; [vm_compute; reflexivity|].
  repeat split; vm_compute; reflexivity.
Qed.

(** The original text keeps its capitals while the match is made on the
    lowercased copy. *)
Example capitals_kept_in_original_text :
  exists r,
    extract_clinical_data (U := Latin1) (PyStr (lit "NAUSEA All Day")) = Ok r
    /\ reads r (lit "NAUSEA All Day") [lit "nausea"] [lit "422587007"]
             None (decimal 75 2).
Proof.
  eexists. split; [vm_compute; reflexivity|].
  repeat split; vm_compute; reflexivity.
Qed.

(** The catalog lookup does fail on a phrase that is not a key. *)
Example getitem_fails_off_catalog :
  getitem SNOMED_SYMPTOM_MAP (lit "pain") = Raise (KeyError (lit "pain")).
Proof. reflexivity. Qed.

(** [json.dumps] does refuse a value. *)
Example json_dumps_refuses_bytes :
  exists e, json_dumps (PyList [PyInt 1; PyBytes [104; 105]%N]) = Raise e.
Proof. eexists. reflexivity. Qed.

(** * Further properties of [extractor.py] *)

(** The score before [min], [max] and [round] are applied. *)
Lemma plain_sum_table (matched found : bool) :
  (let score := decimal 5 1 in
   let score := if matched then fadd score (decimal 25 2) else score in
   if found then fadd score (decimal 15 2) else score)
  = confidence_by_rule matched found.
Proof. destruct matched, found; vm_compute; reflexivity. Qed.

(** X1. [_compute_confidence]: for every count (negative ones too) and
    flag, clamping and rounding change nothing: the result is the plain
    float sum of the base and the bonuses. *)
Theorem clamp_and_round_change_nothing (num_symptoms : Z) (has_severity : bool) :
  _compute_confidence num_symptoms has_severity
  = (let base := decimal 5 1 in
     let base := if (num_symptoms >? 0)%Z then fadd base (decimal 25 2)
                 else base in
     if has_severity then fadd base (decimal 15 2) else base).
Proof.
  rewrite _compute_confidence_rule. symmetry. apply plain_sum_table.
Qed.

(** X2. [_compute_confidence]: more evidence never lowers the score: with
    at least as many symptoms, and a severity if there was one before, the
    score is at least what it was. *)
Theorem confidence_monotone (n n' : Z) (b b' : bool) :
  (n <= n')%Z -> (b = true -> b' = true) ->
  SFleb (_compute_confidence n b) (_compute_confidence n' b') = true.
Proof.
  intros Hn Hb. rewrite !_compute_confidence_rule, !confidence_by_rule_table.
  destruct (n >? 0)%Z eqn:E, (n' >? 0)%Z eqn:E'; try lia;
    destruct b, b'; try (specialize (Hb eq_refl); discriminate);
    vm_compute; reflexivity.
Qed.

Lemma confidence_monotone_witness :
  SFleb (_compute_confidence 0 true) (_compute_confidence 2 true) = true.
Proof.
  apply confidence_monotone; [lia | intros _; reflexivity].
Defined.

Lemma getitem_value V (d : dict V) (k : str) (v : V) :
  getitem d k = Ok v -> In v (map snd d).
Proof.
  induction d as [|[k' v'] d IH]; simpl; [discriminate|].
  destruct (str_eqb k' k); [|auto].
  intros E. inversion E. auto.
Qed.

Lemma catalog_codes_shaped :
  forallb code_shaped (map snd SNOMED_SYMPTOM_MAP) = true.
Proof. vm_compute. reflexivity. Qed.

Section MoreExtractorFacts.
Context {U : UnicodeData}.

(** X3. [extract_clinical_data]: for every string the record holds at most
    10 symptoms, and each of its codes is a value of the catalog, a string
    of 8 or 9 ASCII digits. *)
Theorem record_is_small_and_codes_are_digits (text : str) :
  exists r symptoms codes severity confidence,
    extract_clinical_data (PyStr text) = Ok r
    /\ reads r text symptoms codes severity confidence
    /\ List.length symptoms <= 10
    /\ List.length codes <= 10
    /\ Forall (fun c => In c (map snd SNOMED_SYMPTOM_MAP)
                        /\ code_shaped c = true) codes.
Proof.
  destruct (extract_reads text) as [r [codes [E [F R]]]].
  exists r. do 4 eexists. split; [exact E|]. split; [exact R|].
  assert (L : List.length (_extract_symptoms text) <= 10).
  { rewrite _extract_symptoms_filter.
    etransitivity; [apply filter_length_le | apply Nat.eq_le_incl; reflexivity]. }
  split; [exact L|].
  split; [rewrite <- (Forall2_length F); exact L|].
  clear E R L. induction F as [|s c l codes G _ IH]; constructor; [|exact IH].
  apply getitem_value in G. split; [exact G|].
  pose proof catalog_codes_shaped as K.
  rewrite forallb_forall in K. apply K, G.
Qed.

(** X4. [extract_clinical_data]: two narratives with the same lowercased
    text (that differ in letter case only) get the same symptoms, codes,
    severity and confidence; only [original_text] tells them apart. *)
Theorem letter_case_is_ignored (a b : str) :
  str_lower a = str_lower b ->
  exists ra rb symptoms codes severity confidence,
    extract_clinical_data (PyStr a) = Ok ra
    /\ extract_clinical_data (PyStr b) = Ok rb
    /\ reads ra a symptoms codes severity confidence
    /\ reads rb b symptoms codes severity confidence.
Proof.
  intros L.
  assert (S : _extract_symptoms a = _extract_symptoms b)
    by (rewrite !_extract_symptoms_filter, L; reflexivity).
  destruct (extract_text a) as [ca [Fa Ea]].
  destruct (extract_text b) as [cb [Fb Eb]].
  assert (C : ca = cb).
  { rewrite S in Fa. clear - Fa Fb. revert cb Fb.
    induction Fa as [|s c l ca G _ IH]; intros cb Fb; inversion Fb; subst;
      [reflexivity|].
    f_equal; [congruence | apply IH; assumption]. }
  subst cb. rewrite <- S, <- L in Eb.
  do 6 eexists. split; [exact Ea|]. split; [exact Eb|].
  split; repeat split; reflexivity.
Qed.

(** X5. [_extract_symptoms]: when the lowercased text of one narrative
    occurs inside the lowercased text of another, every symptom of the
    first is a symptom of the second. *)
Theorem symptoms_grow_with_the_text (a b : str) :
  (exists pre post, str_lower b = pre ++ str_lower a ++ post) ->
  forall s, In s (_extract_symptoms a) -> In s (_extract_symptoms b).
Proof.
  intros [pre [post E]] s.
  rewrite !_extract_symptoms_in, !str_contains_spec.
  intros [K [p [q H]]]. split; [exact K|].
  exists (pre ++ p), (q ++ post). rewrite E, H.
  rewrite <- !app_assoc. reflexivity.
Qed.

End MoreExtractorFacts.

Lemma letter_case_is_ignored_witness :
  exists ra rb symptoms codes severity confidence,
    extract_clinical_data (U := Latin1) (PyStr (lit "Bad CRAMPS, 6/10")) = Ok ra
    /\ extract_clinical_data (U := Latin1) (PyStr (lit "bad cramps, 6/10"))
       = Ok rb
    /\ reads ra (lit "Bad CRAMPS, 6/10") symptoms codes severity confidence
    /\ reads rb (lit "bad cramps, 6/10") symptoms codes severity confidence.
Proof.
  apply (letter_case_is_ignored (U := Latin1)). vm_compute. reflexivity.
Defined.

Lemma symptoms_grow_with_the_text_witness :
  In (lit "nausea")
     (_extract_symptoms (U := Latin1) (lit "Nausea and a headache")).
Proof.
  apply (symptoms_grow_with_the_text (U := Latin1) (lit "NAUSEA")).
  - exists [], (lit " and a headache"). vm_compute. reflexivity.
  - vm_compute. left. reflexivity.
Defined.

(** ** The severity is read in the text *)

Section SeverityInText.
Context {U : UnicodeData}.

Lemma group_is_consumed a st st' :
  matches (RGroup a) st st' ->
  exists w, m_group st' = Some w /\ m_rest st = w ++ m_rest st'.
Proof.
  intros H. inv H.
  match goal with M : matches a _ _ |- _ =>
    apply matches_consumes in M; destruct M as [w [E P]] end.
  exists w. cbn [m_group m_rest m_pos]. split; [|exact E].
  rewrite P, E. replace (m_pos st + List.length w - m_pos st)
    with (List.length w + 0) by lia.
  rewrite firstn_app_2. cbn [firstn]. rewrite app_nil_r. reflexivity.
Qed.

Lemma captured_in_tail post st st' :
  group_free post = true ->
  matches (RSeq digit_or_ten post) st st' -> captured_in st st'.
Proof.
  intros F H. inv H.
  match goal with M : matches digit_or_ten _ _ |- _ =>
    pose proof (digit_or_ten_captured M) as [g [G [Nm _]]];
    apply group_is_consumed in M; destruct M as [w [G' E]] end.
  match goal with M : matches post _ _ |- _ =>
    pose proof (matches_group_free M F) as K end.
  assert (w = g) by congruence. subst w.
  exists g, [], (m_rest st1). split; [congruence|]. split; [exact Nm | exact E].
Qed.

Lemma captured_in_skip pre rest st st' :
  (forall st1, matches rest st1 st' -> captured_in st1 st') ->
  matches (RSeq pre rest) st st' -> captured_in st st'.
Proof.
  intros K H. inv H.
  match goal with M : matches rest _ _ |- _ =>
    apply K in M; destruct M as [g [u [v [G [Nm E]]]]] end.
  match goal with M : matches pre _ _ |- _ =>
    apply matches_consumes in M; destruct M as [w [E' _]] end.
  exists g, (w ++ u), v. split; [exact G|]. split; [exact Nm|].
  rewrite E', E, <- app_assoc. reflexivity.
Qed.

Lemma patterns_captured_in p st st' :
  In p patterns -> matches p st st' -> captured_in st st'.
Proof.
  unfold patterns. simpl. intros [<- | [<- | [<- | []]]].
  - apply captured_in_skip. intros st1. apply captured_in_tail. reflexivity.
  - apply captured_in_skip. intros st1. apply captured_in_tail. reflexivity.
  - apply captured_in_skip. intros st1. apply captured_in_skip. intros st2.
    apply captured_in_skip. intros st3. apply captured_in_tail. reflexivity.
Qed.

(** Every match object of [finditer] is a match at a position of the
    text. *)
Lemma finditer_from_suffix r m : forall rest skip prev pos,
  In m (finditer_from r skip prev rest pos) ->
  exists prev' pre rest' pos',
    rest = pre ++ rest' /\ match_at r prev' rest' pos' = Some m.
Proof.
  induction rest as [|x t IH]; intros skip prev pos; simpl.
  - destruct skip; [|intros []].
    destruct (match_at r prev [] pos) eqn:E; [|intros []].
    intros [<- | []]. exists prev, [], [], pos. auto.
  - assert (K : forall skip' prev' pos',
               In m (finditer_from r skip' prev' t pos') ->
               exists prev'' pre rest' pos'',
                 x :: t = pre ++ rest'
                 /\ match_at r prev'' rest' pos'' = Some m).
    { intros skip' prev' pos' H. apply IH in H.
      destruct H as [prev'' [pre [rest' [pos'' [E M]]]]].
      exists prev'', (x :: pre), rest', pos''. rewrite E. auto. }
    destruct skip; [|apply K].
    destruct (match_at r prev (x :: t) pos) eqn:E; [|apply K].
    intros [<- | H]; [|eapply K; exact H].
    exists prev, [], (x :: t), pos. auto.
Qed.

(** The group of every match of a severity pattern is a numeral that occurs
    in the text. *)
Lemma match_numeral_in_text p s m :
  In p patterns -> In m (finditer p s) ->
  exists g, groups m = [Some g] /\ is_numeral g /\ str_contains g s = true.
Proof.
  intros Hp H. apply finditer_from_suffix in H.
  destruct H as [prev [pre [rest [pos [E M]]]]].
  unfold match_at in M.
  destruct (rmatch _ _ _) as [st'|] eqn:R; [|discriminate].
  inv M. apply rmatch_sound in R. destruct R as [st1 [M R]]. inv R.
  apply (patterns_captured_in Hp) in M.
  destruct M as [g [u [v [G [Nm T]]]]]. cbn [m_rest] in T.
  exists g. cbn [groups]. rewrite G. split; [reflexivity|]. split; [exact Nm|].
  apply str_contains_spec. exists (pre ++ u), v.
  rewrite T, <- app_assoc. reflexivity.
Qed.

Lemma first_value_in ms v :
  first_value ms = Some v -> exists m, In m ms /\ captured_value m = Some v.
Proof.
  induction ms as [|m ms IH]; simpl; [discriminate|].
  destruct (captured_value m) as [w|] eqn:E.
  - intros Ev. inv Ev. exists m. auto.
  - intros H. apply IH in H. destruct H as [m' [I C]]. exists m'. auto.
Qed.

Lemma severity_by_rules_in ps s v :
  severity_by_rules ps s = Some v ->
  exists p m, In p ps /\ In m (finditer p s) /\ captured_value m = Some v.
Proof.
  induction ps as [|p ps IH]; simpl; [discriminate|].
  destruct (first_value (finditer p s)) as [w|] eqn:E.
  - intros Ev. inv Ev. apply first_value_in in E.
    destruct E as [m [I C]]. exists p, m. auto.
  - intros H. apply IH in H. destruct H as [p' [m [I [J C]]]].
    exists p', m. auto.
Qed.

Lemma severity_numeral s v :
  severity_by_rules patterns s = Some v ->
  exists g, is_numeral g /\ int_of_str g = Ok v /\ str_contains g s = true.
Proof.
  intros H. apply severity_by_rules_in in H.
  destruct H as [p [m [Hp [Hm C]]]].
  destruct (match_numeral_in_text _ _ Hp Hm) as [g [G [Nm T]]].
  exists g. split; [exact Nm|]. split; [|exact T].
  unfold captured_value in C. rewrite G in C. cbn [nth] in C.
  destruct (int_of_str g) as [w|]; [|discriminate].
  destruct ((0 <=? w)%Z && (w <=? 10)%Z); [|discriminate].
  congruence.
Qed.

Lemma numeral_has_digit g s :
  is_numeral g -> str_contains g s = true -> existsb is_digit s = true.
Proof.
  intros Nm C. apply str_contains_spec in C. destruct C as [pre [post ->]].
  rewrite !existsb_app.
  destruct Nm as [[d [[Lo Hi] ->]] | ->].
  - simpl. unfold is_digit.
    apply N.leb_le in Lo. apply N.leb_le in Hi. rewrite Lo, Hi. simpl.
    apply orb_true_r.
  - simpl. apply orb_true_r.
Qed.

(** X6. [_extract_severity]: a severity that is returned is written in the
    lowercased text: one of the numerals 0 to 9 or 10 occurs in it and [int]
    of this numeral is the severity. *)
Theorem severity_is_written_in_the_text (text : str) (v : Z) :
  _extract_severity text = Ok (Some v) ->
  exists g,
    is_numeral g /\ int_of_str g = Ok v
    /\ exists pre post, str_lower text = pre ++ g ++ post.
Proof.
  rewrite _extract_severity_spec. intros E.
  assert (S : severity_by_rules patterns (str_lower text) = Some v)
    by congruence.
  apply severity_numeral in S. destruct S as [g [Nm [I C]]].
  exists g. split; [exact Nm|]. split; [exact I|].
  apply str_contains_spec. exact C.
Qed.

(** X7. [extract_clinical_data]: a narrative whose lowercased text holds no
    ASCII digit has no severity, and its confidence is 0.5 or 0.75. *)
Theorem no_digit_no_severity (text : str) :
  existsb is_digit (str_lower text) = false ->
  _extract_severity text = Ok None
  /\ exists r symptoms codes confidence,
       extract_clinical_data (PyStr text) = Ok r
       /\ reads r text symptoms codes None confidence
       /\ (confidence = decimal 5 1 \/ confidence = decimal 75 2).
Proof.
  intros D.
  assert (S : severity_by_rules patterns (str_lower text) = None).
  { destruct (severity_by_rules patterns (str_lower text)) as [v|] eqn:E;
      [|reflexivity].
    apply severity_numeral in E. destruct E as [g [Nm [_ C]]].
    rewrite (numeral_has_digit _ Nm C) in D. discriminate. }
  split; [rewrite _extract_severity_spec, S; reflexivity|].
  destruct (extract_reads text) as [r [codes [E [F R]]]].
  rewrite S in R. exists r. do 3 eexists.
  split; [exact E|]. split; [exact R|].
  rewrite confidence_by_rule_table.
  destruct (_extract_symptoms text); simpl; auto.
Qed.

(** X8. [_extract_severity]: every match of each of the three patterns has
    its group, [int] succeeds on it and the value is in [0,10], so that no
    match is ever passed over; the severity is absent exactly when none of
    the patterns matches anywhere in the lowercased text. *)
Theorem no_match_is_ever_rejected (text : str) :
  Forall (fun p =>
            Forall (fun m => exists g v,
                      groups m = [Some g] /\ int_of_str g = Ok v
                      /\ (0 <= v <= 10)%Z)
                   (finditer p (str_lower text)))
         patterns
  /\ (_extract_severity text = Ok None <->
      Forall (fun p => finditer p (str_lower text) = []) patterns).
Proof.
  split.
  - apply Forall_forall. intros p Hp. apply Forall_forall. intros m Hm.
    destruct (match_numeral_in_text _ _ Hp Hm) as [g [G [Nm _]]].
    destruct (numeral_value Nm) as [v [I R]]. exists g, v. auto.
  - rewrite _extract_severity_spec.
    assert (K : forall ps, incl ps patterns ->
              (severity_by_rules ps (str_lower text) = None <->
               Forall (fun p => finditer p (str_lower text) = []) ps)).
    { induction ps as [|p ps IH]; intros I; simpl.
      - split; [constructor | reflexivity].
      - assert (Hp : In p patterns) by (apply I; left; reflexivity).
        assert (I' : incl ps patterns)
          by (intros q Hq; apply I; right; exact Hq).
        destruct (finditer p (str_lower text)) as [|m ms] eqn:E; simpl.
        + rewrite (IH I'). split; [intros H; constructor; auto|].
          intros H. inversion H; assumption.
        + assert (Hm : In m (finditer p (str_lower text)))
            by (rewrite E; left; reflexivity).
          destruct (every_match_valid _ _ Hp Hm) as [v [C _]].
          rewrite C. split; [discriminate|].
          intros H. inversion H. congruence. }
    split.
    + intros H. apply K; [apply incl_refl | congruence].
    + intros H. f_equal. apply K; [apply incl_refl | exact H].
Qed.

End SeverityInText.

Lemma severity_is_written_in_the_text_witness :
  exists g,
    is_numeral g /\ int_of_str g = Ok 6%Z
    /\ exists pre post,
         str_lower (UnicodeData := Latin1) (lit "Bad CRAMPS, 6/10")
         = pre ++ g ++ post.
Proof.
  apply (severity_is_written_in_the_text (U := Latin1)).
  vm_compute. reflexivity.
Defined.

Lemma no_digit_no_severity_witness :
  _extract_severity (U := Latin1) (lit "Terrible headache all day") = Ok None
  /\ exists r symptoms codes confidence,
       extract_clinical_data (U := Latin1)
         (PyStr (lit "Terrible headache all day")) = Ok r
       /\ reads r (lit "Terrible headache all day") symptoms codes None
                confidence
       /\ (confidence = decimal 5 1 \/ confidence = decimal 75 2).
Proof.
  apply (no_digit_no_severity (U := Latin1)). vm_compute. reflexivity.
Defined.

(** * Properties of [app.py] *)

(** ** [str.join] *)

Lemma join_items_strs sep l : forall i,
  join_items sep i (map PyStr l) = Ok (join_strs sep l).
Proof.
  induction l as [|s l IH]; intros i; [reflexivity|].
  cbn [map join_items]. rewrite IH. cbn [bind].
  destruct l; [|reflexivity].
  cbn [map is_empty join_strs]. reflexivity.
Qed.





(** ** [build_response_text] *)

Section ResponseFacts.
Context {B : Builtins}.

Lemma build_on_findings d l severity :
  get_or_none d "extracted_symptoms" = PyList (map PyStr l) ->
  get_or_none d "severity" = py_of_severity severity ->
  build_response_text (PyDict d)
  = Returned (opening l ++ rating severity ++ closing).
Proof.
  intros Hs Hv. unfold build_response_text. rewrite Hs, Hv.
  destruct l as [|s l].
  - cbn [map py_or truthy is_empty negb and_then opening].
    destruct severity; cbn [py_of_severity is_none negb rating py_str];
      rewrite <- ?app_assoc; reflexivity.
  - assert (T : truthy (PyList (map PyStr (s :: l))) = true) by reflexivity.
    unfold py_or. rewrite T. cbv iota. rewrite T.
    unfold str_join. cbn [join_operands bind].
    rewrite (join_items_strs (lit ", ") (s :: l) 0).
    cbn [lift and_then opening is_empty].
    destruct severity; cbn [py_of_severity is_none negb rating py_str];
      rewrite <- ?app_assoc; reflexivity.
Qed.



End ResponseFacts.

Section ResponseOfExtraction.
Context {U : UnicodeData} {B : Builtins}.

(** The response to the record of a narrative. *)
Lemma response_of_record text :
  exists r codes,
    extract_clinical_data (PyStr text) = Ok r
    /\ reads r text (_extract_symptoms text) codes
             (severity_by_rules patterns (str_lower text))
             (confidence_by_rule
                (negb (is_empty (_extract_symptoms text)))
                (is_not_none (severity_by_rules patterns (str_lower text))))
    /\ truthy r = true
    /\ build_response_text r
       = Returned (opening (_extract_symptoms text)
                   ++ rating (severity_by_rules patterns (str_lower text))
                   ++ closing).
Proof.
  destruct (extract_text text) as [codes [F E]].
  eexists. exists codes. split; [exact E|].
  split; [repeat split; reflexivity|].
  split; [reflexivity|].
  apply build_on_findings; reflexivity.
Qed.

(** X9. [build_response_text] after [extract_clinical_data]: on the record
    of every narrative the response is returned, and it is the opening (the
    symptoms joined by ", " in a sentence, or the thanks when there is
    none), the rating of the severity when there is one, and the closing
    sentence. *)
Theorem response_to_every_narrative (text : str) :
  exists r symptoms codes severity confidence,
    extract_clinical_data (PyStr text) = Ok r
    /\ reads r text symptoms codes severity confidence
    /\ build_response_text r
       = Returned (opening symptoms ++ rating severity ++ closing).
Proof.
  destruct (response_of_record text) as [r [codes [E [R [_ H]]]]].
  exists r. do 4 eexists. split; [exact E|]. split; [exact R | exact H].
Qed.

End ResponseOfExtraction.


Example response_to_scenario :
  exists r,
    extract_clinical_data (U := Latin1) (PyStr scenario_text) = Ok r
    /\ build_response_text (B := no_repr) r
       = Returned
           (lit "I'm sorry you're experiencing pelvic pain, fatigue. You've rated this around 7/10. I've logged your entry so it can support a clearer clinical picture over time.").
Proof. eexists. split; vm_compute; reflexivity. Qed.

Example response_fails_on_a_number :
  build_response_text (B := no_repr)
    (PyDict [(lit "extracted_symptoms", PyList [PyStr (lit "nausea"); PyInt 3])])
  = Failed (Builtin (TypeError
      (lit "sequence item 1: expected str instance, int found"))).
Proof. vm_compute. reflexivity. Qed.

(** ** The chat tab *)

Lemma comprehension_app A B0 (f : A -> result B0) (l1 l2 : list A) ys1 ys2 :
  comprehension f l1 = Ok ys1 -> comprehension f l2 = Ok ys2 ->
  comprehension f (l1 ++ l2) = Ok (ys1 ++ ys2).
Proof.
  revert ys1. induction l1 as [|x l1 IH]; intros ys1; simpl.
  - intros E1 E2. inversion E1. exact E2.
  - destruct (f x) as [y|]; [|discriminate]. simpl.
    destruct (comprehension f l1) as [ys|] eqn:E; [|discriminate]. simpl.
    intros E1 E2. inversion E1. rewrite (IH ys eq_refl E2). reflexivity.
Qed.

Lemma render_assistant_message response record :
  truthy record = true ->
  render_message (assistant_message response record)
  = Ok (shown_assistant response record).
Proof.
  intros T. unfold render_message, assistant_message.
  cbn [getitem bind]. rewrite !str_eqb_refl.
  replace (str_eqb (lit "role") (lit "content")) with false by reflexivity.
  cbn [bind].
  replace (get_or_none _ "extracted") with record by reflexivity.
  rewrite T. reflexivity.
Qed.

Section ChatFacts.
Context {U : UnicodeData} {B : Builtins}.

Lemma record_is_true text record :
  extract_clinical_data (PyStr text) = Ok record -> truthy record = true.
Proof.
  destruct (extract_text text) as [codes [_ E]]. rewrite E.
  intros H. inversion H. reflexivity.
Qed.

(** A conversation is rendered, one widget per message. *)
Lemma conversation_renders h :
  conversation h ->
  exists page,
    comprehension render_message h = Ok page
    /\ List.length page = List.length h.
Proof.
  induction 1 as [|h text record response _ [page [E L]] Ht Hr Hb].
  - exists []. split; reflexivity.
  - exists (page ++ [shown_user text; shown_assistant response record]).
    split.
    + apply comprehension_app; [exact E|].
      cbn [comprehension].
      rewrite render_assistant_message
        by (eapply record_is_true; exact Hr).
      reflexivity.
    + rewrite !length_app, L. reflexivity.
Qed.

(** The chat tab on a conversation and a prompt with text. *)
Lemma chat_tab_turn h text :
  conversation h -> is_empty text = false ->
  exists record response page,
    extract_clinical_data (PyStr text) = Ok record
    /\ build_response_text record = Returned response
    /\ render_chat_history (Some h) = Returned page
    /\ chat_tab (Some h) (Some text)
       = Returned
           (Some (h ++ [user_message text;
                        assistant_message response record]),
            page ++ [shown_user text; shown_assistant response record]).
Proof.
  intros C T.
  destruct (conversation_renders C) as [page [E _]].
  destruct (response_of_record text) as [record [codes [Er [_ [_ Hb]]]]].
  eexists record, _, page. split; [exact Er|]. split; [exact Hb|].
  unfold chat_tab, render_chat_history. rewrite E. cbn [lift and_then].
  split; [reflexivity|].
  rewrite T. cbn [negb add_message and_then]. rewrite Er. cbn [lift and_then].
  rewrite Hb. cbn [and_then]. rewrite <- app_assoc. reflexivity.
Qed.

Lemma chat_tab_idle h prompt :
  conversation h ->
  match prompt with Some text => is_empty text | None => true end = true ->
  exists page,
    render_chat_history (Some h) = Returned page
    /\ chat_tab (Some h) prompt = Returned (Some h, page).
Proof.
  intros C T. destruct (conversation_renders C) as [page [E _]].
  exists page. unfold chat_tab, render_chat_history. rewrite E.
  cbn [lift and_then]. split; [reflexivity|].
  destruct prompt as [text|]; [rewrite T|]; reflexivity.
Qed.

(** What [init_session_state] leaves of a reachable state is a
    conversation. *)
Lemma reachable_conversation ss :
  reachable ss ->
  exists h, init_session_state ss = Some h /\ conversation h
            /\ (ss = None \/ ss = Some h).
Proof.
  induction 1 as [|ss prompt ss' page _ [h [I [C _]]] M].
  - exists []. split; [reflexivity|]. split; [constructor | left; reflexivity].
  - unfold main_chat in M. rewrite I in M.
    destruct prompt as [text|].
    + destruct (is_empty text) eqn:T.
      * destruct (chat_tab_idle (Some text) C T) as [pg [_ E]].
        pose proof (eq_trans (eq_sym E) M) as X. inversion X; subst.
        exists h. split; [reflexivity|]. split; [exact C | right; reflexivity].
      * destruct (@chat_tab_turn h text C T)
          as [r [resp [pg [Er [Hb [_ E]]]]]].
        pose proof (eq_trans (eq_sym E) M) as X. inversion X; subst.
        eexists. split; [reflexivity|].
        split; [|right; reflexivity].
        econstructor; eassumption.
    + destruct (chat_tab_idle None C eq_refl) as [pg [_ E]].
      pose proof (eq_trans (eq_sym E) M) as X. inversion X; subst.
      exists h. split; [reflexivity|]. split; [exact C | right; reflexivity].
Qed.

Lemma conversation_even h : conversation h -> Nat.even (List.length h) = true.
Proof.
  induction 1 as [|h text record response _ IH _ _ _]; [reflexivity|].
  rewrite length_app. cbn [List.length].
  replace (List.length h + 2) with (S (S (List.length h))) by lia.
  exact IH.
Qed.

End ChatFacts.

Section ChatClaims.
Context {U : UnicodeData} {B : Builtins}.

Lemma render_turn h page text response record :
  comprehension render_message h = Ok page ->
  truthy record = true ->
  comprehension render_message
    (h ++ [user_message text; assistant_message response record])
  = Ok (page ++ [shown_user text; shown_assistant response record]).
Proof.
  intros E T. apply comprehension_app; [exact E|].
  cbn [comprehension]. rewrite render_assistant_message by exact T.
  reflexivity.
Qed.

Lemma lift_returned A (m : result A) (a : A) :
  lift m = Returned a -> m = Ok a.
Proof. destruct m; simpl; congruence. Qed.

(** X12. [main], chat tab: from every state that the reruns reach, a prompt
    with text appends exactly two messages to the history and leaves the
    earlier ones as they were: the message of the user with the text, and
    the message of the assistant with the response and the record of
    [extract_clinical_data] for this text; the tab shows the history and
    then these two messages. *)
Theorem a_prompt_appends_two_messages (ss : session_state) (text : str) :
  reachable ss -> is_empty text = false ->
  exists h record response page,
    init_session_state ss = Some h
    /\ extract_clinical_data (PyStr text) = Ok record
    /\ build_response_text record = Returned response
    /\ render_chat_history (Some h) = Returned page
    /\ main_chat ss (Some text)
       = Returned
           (Some (h ++ [user_message text;
                        assistant_message response record]),
            page ++ [shown_user text; shown_assistant response record]).
Proof.
  intros R T.
  destruct (reachable_conversation R) as [h [I [C _]]].
  destruct (@chat_tab_turn U B h text C T) as [r [resp [pg [Er [Hb [Hp E]]]]]].
  exists h, r, resp, pg. unfold main_chat. rewrite I. auto.
Qed.

(** X13. [main], chat tab: from a fresh session no rerun ever raises,
    whatever the prompts; the history always holds an even number of
    messages, made of turns (a user message with a non-empty text, then the
    assistant message with the record and the response for this text). *)
Theorem no_rerun_ever_fails (ss : session_state) :
  reachable ss ->
  (forall prompt, exists ss' page, main_chat ss prompt = Returned (ss', page))
  /\ exists h,
       init_session_state ss = Some h
       /\ conversation h
       /\ Nat.even (List.length h) = true.
Proof.
  intros R. destruct (reachable_conversation R) as [h [I [C _]]]. split.
  - intros prompt. unfold main_chat. rewrite I.
    destruct prompt as [text|].
    + destruct (is_empty text) eqn:T.
      * destruct (chat_tab_idle (Some text) C T) as [pg [_ E]]. eauto.
      * destruct (@chat_tab_turn U B h text C T)
          as [r [resp [pg [_ [_ [_ E]]]]]].
        eauto.
    + destruct (chat_tab_idle None C eq_refl) as [pg [_ E]]. eauto.
  - exists h. split; [exact I|]. split; [exact C|].
    apply conversation_even, C.
Qed.

(** X14. [render_chat_history] after [main]: what the chat tab showed in a
    rerun (the history, then the new messages rendered as they came) is
    what [render_chat_history] renders from the session state that the
    rerun leaves. *)
Theorem replay_shows_what_was_shown (ss ss' : session_state)
    (prompt : option str) (page : list widget) :
  reachable ss ->
  main_chat ss prompt = Returned (ss', page) ->
  render_chat_history ss' = Returned page.
Proof.
  intros R M. destruct (reachable_conversation R) as [h [I [C _]]].
  unfold main_chat in M. rewrite I in M.
  assert (Idle : match prompt with
                 | Some text => is_empty text
                 | None => true
                 end = true -> render_chat_history ss' = Returned page).
  { intros T. destruct (chat_tab_idle prompt C T) as [pg [Hp E]].
    pose proof (eq_trans (eq_sym E) M) as X. inversion X; subst. exact Hp. }
  destruct prompt as [text|]; [|apply Idle; reflexivity].
  destruct (is_empty text) eqn:T; [apply Idle; reflexivity|]. clear Idle.
  destruct (@chat_tab_turn U B h text C T) as [r [resp [pg [Er [_ [Hp E]]]]]].
  pose proof (eq_trans (eq_sym E) M) as X. inversion X; subst.
  unfold render_chat_history in *. apply lift_returned in Hp.
  erewrite render_turn;
    [reflexivity | exact Hp | eapply record_is_true; exact Er].
Qed.

(** X15. [main], chat tab: a rerun without a prompt, or with an empty one,
    adds no message: the history is the one [init_session_state] leaves,
    and the tab shows it. *)
Theorem no_prompt_no_message (ss : session_state) (prompt : option str) :
  reachable ss ->
  match prompt with Some text => is_empty text | None => true end = true ->
  exists page,
    render_chat_history (init_session_state ss) = Returned page
    /\ main_chat ss prompt = Returned (init_session_state ss, page).
Proof.
  intros R T. destruct (reachable_conversation R) as [h [I [C _]]].
  unfold main_chat. rewrite I. apply chat_tab_idle; assumption.
Qed.

End ChatClaims.

(** The chat tab on a fresh session, with the tables of Latin-1. *)

Lemma a_prompt_appends_two_messages_witness :
  exists h record response page,
    init_session_state None = Some h
    /\ extract_clinical_data (U := Latin1) (PyStr (lit "Cramps, about 6"))
       = Ok record
    /\ build_response_text (B := no_repr) record = Returned response
    /\ render_chat_history (Some h) = Returned page
    /\ main_chat (U := Latin1) (B := no_repr) None
         (Some (lit "Cramps, about 6"))
       = Returned
           (Some (h ++ [user_message (lit "Cramps, about 6");
                        assistant_message response record]),
            page ++ [shown_user (lit "Cramps, about 6");
                     shown_assistant response record]).
Proof.
  apply (a_prompt_appends_two_messages (U := Latin1) (B := no_repr));
    [apply fresh | reflexivity].
Defined.

Lemma no_rerun_ever_fails_witness :
  (forall prompt, exists ss' page,
      main_chat (U := Latin1) (B := no_repr) None prompt
      = Returned (ss', page))
  /\ exists h,
       init_session_state None = Some h
       /\ conversation (U := Latin1) (B := no_repr) h
       /\ Nat.even (List.length h) = true.
Proof.
  apply (no_rerun_ever_fails (U := Latin1) (B := no_repr)). apply fresh.
Defined.

Lemma replay_shows_what_was_shown_witness :
  exists ss' page,
    main_chat (U := Latin1) (B := no_repr) None (Some (lit "Cramps, about 6"))
    = Returned (ss', page)
    /\ render_chat_history ss' = Returned page.
Proof.
  eexists. eexists. split; [vm_compute; reflexivity|].
  apply (@replay_shows_what_was_shown Latin1 no_repr None _
           (Some (lit "Cramps, about 6")) _);
    [apply fresh | vm_compute; reflexivity].
Defined.

Lemma no_prompt_no_message_witness :
  exists page,
    render_chat_history (init_session_state None) = Returned page
    /\ main_chat (U := Latin1) (B := no_repr) None (Some [])
       = Returned (init_session_state None, page).
Proof.
  apply (no_prompt_no_message (U := Latin1) (B := no_repr));
    [apply fresh | reflexivity].
Defined.

Example two_turns :
  exists ss1 page1 ss2 page2 h,
    main_chat (U := Latin1) (B := no_repr) None (Some (lit "Cramps, about 6"))
    = Returned (ss1, page1)
    /\ main_chat (U := Latin1) (B := no_repr) ss1 (Some (lit "Now nausea"))
       = Returned (ss2, page2)
    /\ ss2 = Some h
    /\ List.length h = 4
    /\ List.length page2 = 4.
Proof.
  do 5 eexists. split; [vm_compute; reflexivity|].
  split; [vm_compute; reflexivity|].
  split; [reflexivity|]. split; reflexivity.
Qed.

Example add_message_needs_the_history :
  add_message None (lit "user") (lit "hello") PyNone
  = Failed (AttributeError (lit "chat_history")).
Proof. reflexivity. Qed.

(** * Further properties of the matchers *)

Section MatcherFacts.
Context {U : UnicodeData}.

Lemma first_value_leftmost p lowered :
  In p patterns ->
  first_value (finditer p lowered) = leftmost_value (finditer p lowered).
Proof.
  intros Hp. destruct (finditer p lowered) as [|m ms] eqn:E; [reflexivity|].
  assert (Hm : In m (finditer p lowered)) by (rewrite E; left; reflexivity).
  destruct (every_match_valid _ _ Hp Hm) as [v [C _]].
  cbn [first_value leftmost_value]. rewrite C. reflexivity.
Qed.

(** X16. [_extract_severity]: the leftmost match of the first pattern that
    matches at all decides: the slash pattern when it matches somewhere,
    whatever numbers stand before its match in the text, else the "out of"
    pattern, else the bare number. *)
Theorem leftmost_match_of_first_rule_decides (text : str) :
  _extract_severity text
  = Ok (match finditer pattern_slash (str_lower text) with
        | m :: _ => captured_value m
        | [] =>
            match finditer pattern_out_of (str_lower text) with
            | m :: _ => captured_value m
            | [] => leftmost_value (finditer pattern_bare (str_lower text))
            end
        end).
Proof.
  rewrite _extract_severity_spec. unfold patterns.
  cbn [severity_by_rules].
  rewrite !first_value_leftmost by (unfold patterns; simpl; tauto).
  assert (V : forall p, In p patterns ->
              forall m ms, finditer p (str_lower text) = m :: ms ->
              exists v, captured_value m = Some v).
  { intros p Hp m ms E.
    assert (Hm : In m (finditer p (str_lower text)))
      by (rewrite E; left; reflexivity).
    destruct (every_match_valid _ _ Hp Hm) as [v [C _]]. eauto. }
  destruct (finditer pattern_slash (str_lower text)) as [|m1 ms1] eqn:E1.
  - destruct (finditer pattern_out_of (str_lower text)) as [|m2 ms2] eqn:E2.
    + cbn [leftmost_value].
      destruct (leftmost_value _); reflexivity.
    + destruct (V pattern_out_of (or_intror (or_introl eq_refl)) _ _ E2)
        as [v C].
      cbn [leftmost_value]. rewrite C. reflexivity.
  - destruct (V pattern_slash (or_introl eq_refl) _ _ E1) as [v C].
    cbn [leftmost_value]. rewrite C. reflexivity.
Qed.

(** X17. [_extract_symptoms]: the loop that removes duplicates removes
    nothing: the list [found] of the first loop has no repetition, and it
    is the result. *)
Theorem dedup_loop_changes_nothing (text : str) :
  let found :=
    fold_left
      (fun found keyword =>
         if str_contains keyword (str_lower text) then found ++ [keyword]
         else found)
      SYMPTOM_KEYWORDS [] in
  NoDup found /\ _extract_symptoms text = found.
Proof.
  cbv zeta. rewrite found_loop. cbn [app]. split.
  - apply NoDup_filter, keywords_nodup.
  - apply _extract_symptoms_filter.
Qed.

(** X18. [_extract_symptoms]: no catalog phrase lies inside another, so a
    narrative whose lowercased text is a catalog phrase has this phrase as
    its one symptom. *)
Theorem a_phrase_alone_is_the_one_symptom (text : str) :
  In (str_lower text) (keys SNOMED_SYMPTOM_MAP) ->
  _extract_symptoms text = [str_lower text].
Proof.
  rewrite _extract_symptoms_filter. intros K.
  destruct (str_lower text) eqn:E; simpl in K;
    repeat (destruct K as [K | K];
            [rewrite <- K; vm_compute; reflexivity|]);
    destruct K.
Qed.

End MatcherFacts.

Lemma a_phrase_alone_is_the_one_symptom_witness :
  _extract_symptoms (U := Latin1) (lit "Abdominal Pain")
  = [str_lower (UnicodeData := Latin1) (lit "Abdominal Pain")].
Proof.
  apply (a_phrase_alone_is_the_one_symptom (U := Latin1)).
  vm_compute. tauto.
Defined.

Example slash_rule_wins_over_earlier_number :
  _extract_severity (U := Latin1) (lit "3 days of pain, now 7/10")
  = Ok (Some 7%Z).
Proof. vm_compute. reflexivity. Qed.
